(** * bug-blazer: membership and invitation model

    A shallow embedding of the storage layer (tables, row-level-security
    policies, triggers and the [accept_invitation] stored procedure of the
    SQL migrations) and of the client handlers of [TeamManagement.tsx] and
    of the invitation acceptance page that drive it.

    Conventions.
    - A table is the list of its rows, in physical order; [SELECT ... INTO]
      takes the first matching row.
    - A [uuid] is a number; [gen_random_uuid()] is an explicit argument of
      the operation that draws it.
    - A [timestamptz] is a number of microseconds; [now()] is an explicit
      argument, constant inside one transaction.
    - SQL [NULL] is [None]; comparisons with [NULL] are three-valued.
    - Strings are byte strings: [toLowerCase] and [trim] are modelled on
      ASCII. *)

From Stdlib Require Import ZArith NArith List String Ascii Bool Lia.
Import ListNotations.

(** ** Scalars *)

Definition uuid := N.
Definition timestamptz := Z.

(** [CREATE TYPE public.member_role AS ENUM ('owner', 'contributor')] *)
Inductive member_role := owner | contributor.

(** [interval '7 days'] in microseconds. *)
Definition interval_7_days : Z := 604800000000.

Definition is_null {A} (x : option A) : bool :=
  match x with None => true | Some _ => false end.

Definition is_not_null {A} (x : option A) : bool := negb (is_null x).

(** ** SQL three-valued comparison on TEXT *)

Definition sql_eq (a b : option string) : option bool :=
  match a, b with
  | Some x, Some y => Some (String.eqb x y)
  | _, _ => None
  end.

Definition sql_ne (a b : option string) : option bool :=
  option_map negb (sql_eq a b).

(** A [WHERE] clause, a policy expression and a plpgsql [IF] all take the
    branch only when the condition is true: [NULL] counts as not true. *)
Definition sql_is_true (c : option bool) : bool :=
  match c with Some true => true | _ => false end.

(** ** JavaScript string helpers used by the client

    [toLowerCase] and [trim] are [String.prototype.toLowerCase] and
    [String.prototype.trim] on strings of ASCII characters. On other
    strings JavaScript lower-cases letters outside A to Z and strips
    further white space (U+00A0, U+FEFF, U+2028, U+2029, the space
    separators), which these definitions leave alone. *)

Definition ascii_toLowerCase (c : ascii) : ascii :=
  let n := nat_of_ascii c in
  if (65 <=? n)%nat && (n <=? 90)%nat then ascii_of_nat (n + 32) else c.

Fixpoint toLowerCase (s : string) : string :=
  match s with
  | EmptyString => EmptyString
  | String c s' => String (ascii_toLowerCase c) (toLowerCase s')
  end.

Definition is_white_space (c : ascii) : bool :=
  let n := nat_of_ascii c in
  ((9 <=? n)%nat && (n <=? 13)%nat) || (n =? 32)%nat.

Fixpoint trimStart (s : string) : string :=
  match s with
  | EmptyString => EmptyString
  | String c s' => if is_white_space c then trimStart s' else s
  end.

Fixpoint trimEnd (s : string) : string :=
  match s with
  | EmptyString => EmptyString
  | String c s' =>
      match trimEnd s' with
      | EmptyString => if is_white_space c then EmptyString else String c EmptyString
      | t => String c t
      end
  end.

Definition trim (s : string) : string := trimEnd (trimStart s).

(** JavaScript truthiness of a string: the empty string is falsy. *)
Definition truthy (s : string) : bool :=
  match s with EmptyString => false | _ => true end.

(** [x?.field || fallback] on an optional string. *)
Definition or_default (x : option string) (fallback : string) : string :=
  match x with
  | Some s => if truthy s then s else fallback
  | None => fallback
  end.

(** ** Tables *)

(** The two columns of [auth.users] the migrations read. *)
Record auth_user := {
  au_id : uuid;
  au_email : option string
}.

Record profile := {
  prof_user_id : uuid;
  prof_full_name : option string
}.

Record project := {
  proj_id : uuid;
  proj_name : string;
  proj_description : option string;
  proj_owner_id : uuid;
  proj_created_at : timestamptz;
  proj_updated_at : timestamptz
}.

Record column := {
  col_id : uuid;
  col_project_id : uuid;
  col_name : string;
  col_position : Z;
  col_created_at : timestamptz
}.

Record project_member := {
  pm_id : uuid;
  pm_project_id : uuid;
  pm_user_id : uuid;
  pm_role : member_role;
  pm_invited_by : uuid;
  pm_invited_at : timestamptz;
  pm_joined_at : option timestamptz;
  pm_created_at : timestamptz;
  pm_updated_at : timestamptz
}.

Record project_invitation := {
  inv_id : uuid;
  inv_project_id : uuid;
  inv_email : string;
  inv_role : member_role;
  inv_invited_by : uuid;
  inv_token : uuid;
  inv_expires_at : timestamptz;
  inv_accepted_at : option timestamptz;
  inv_created_at : timestamptz
}.

Record db := {
  auth_users : list auth_user;
  profiles : list profile;
  projects : list project;
  columns : list column;
  project_members : list project_member;
  project_invitations : list project_invitation
}.

Definition empty_db : db :=
  {| auth_users := []; profiles := []; projects := []; columns := [];
     project_members := []; project_invitations := [] |}.

Definition set_projects (d : db) (ps : list project) : db :=
  {| auth_users := auth_users d; profiles := profiles d; projects := ps;
     columns := columns d; project_members := project_members d;
     project_invitations := project_invitations d |}.

Definition set_columns (d : db) (cs : list column) : db :=
  {| auth_users := auth_users d; profiles := profiles d; projects := projects d;
     columns := cs; project_members := project_members d;
     project_invitations := project_invitations d |}.

Definition set_project_members (d : db) (ms : list project_member) : db :=
  {| auth_users := auth_users d; profiles := profiles d; projects := projects d;
     columns := columns d; project_members := ms;
     project_invitations := project_invitations d |}.

Definition set_project_invitations (d : db) (rows : list project_invitation) : db :=
  {| auth_users := auth_users d; profiles := profiles d; projects := projects d;
     columns := columns d; project_members := project_members d;
     project_invitations := rows |}.

(** ** Errors raised by a statement *)

Inductive pg_error :=
| unique_violation (constraint : string)
| rls_violation (table : string)
| not_null_violation (col : string)
| foreign_key_violation (constraint : string).

Inductive result (A : Type) :=
| Ok (a : A)
| Err (e : pg_error).

Arguments Ok {A} a.
Arguments Err {A} e.

(** ** Authorization predicates

    [auth.uid()] is the session argument [uid]; it is [None] for an
    unauthenticated request. *)

Definition is_project_owner (d : db) (uid : option uuid) (project_id_param : uuid) : bool :=
  match uid with
  | None => false
  | Some u =>
      existsb (fun p => (proj_id p =? project_id_param)%N && (proj_owner_id p =? u)%N)
              (projects d)
  end.

Definition is_project_member (d : db) (uid : option uuid) (project_id_param : uuid) : bool :=
  match uid with
  | None => false
  | Some u =>
      existsb (fun m => (pm_project_id m =? project_id_param)%N
                        && (pm_user_id m =? u)%N
                        && is_not_null (pm_joined_at m))
              (project_members d)
  end.

(** The expression the last invitation policies share. *)
Definition owner_or_member (d : db) (uid : option uuid) (projectId : uuid) : bool :=
  is_project_owner d uid projectId || is_project_member d uid projectId.

(** [SELECT email FROM auth.users WHERE id = auth.uid()] as a scalar. *)
Definition get_current_user_email (d : db) (uid : option uuid) : option string :=
  match uid with
  | None => None
  | Some u =>
      match find (fun a => (au_id a =? u)%N) (auth_users d) with
      | Some a => au_email a
      | None => None
      end
  end.

(** ** Row-level-security policies, as they stand after the last migration

    Policies of one table for one command are permissive: a row passes
    when one of them is true. *)

(** [project_invitations]:
    "Project members can view invitations" and
    "Users can view invitations sent to their email". *)
Definition invitations_select_policy (d : db) (uid : option uuid)
    (r : project_invitation) : bool :=
  (is_project_owner d uid (inv_project_id r) || is_project_member d uid (inv_project_id r))
  || sql_is_true (sql_eq (Some (inv_email r)) (get_current_user_email d uid)).

(** "Project members can create invitations", [FOR INSERT WITH CHECK]. *)
Definition invitations_insert_check (d : db) (uid : option uuid)
    (r : project_invitation) : bool :=
  is_project_owner d uid (inv_project_id r) || is_project_member d uid (inv_project_id r).

(** "Project members can delete invitations", [FOR DELETE USING]. *)
Definition invitations_delete_policy (d : db) (uid : option uuid)
    (r : project_invitation) : bool :=
  is_project_owner d uid (inv_project_id r) || is_project_member d uid (inv_project_id r).

(** [project_members]:
    "Users can view members of accessible projects" and, as a [FOR ALL]
    policy, "Project owners can manage members". *)
Definition members_select_policy (d : db) (uid : option uuid)
    (m : project_member) : bool :=
  (is_project_owner d uid (pm_project_id m) || is_project_member d uid (pm_project_id m))
  || is_project_owner d uid (pm_project_id m).

(** "Project owners can manage members" is the only policy for [DELETE]. *)
Definition members_delete_policy (d : db) (uid : option uuid)
    (m : project_member) : bool :=
  is_project_owner d uid (pm_project_id m).

(** "Project owners can manage members" and
    "Users can update their own membership". *)
Definition members_update_policy (d : db) (uid : option uuid)
    (m : project_member) : bool :=
  is_project_owner d uid (pm_project_id m)
  || match uid with Some u => (pm_user_id m =? u)%N | None => false end.

(** [projects]: "Users can view their own projects" and
    "Users can create projects" are both [auth.uid() = owner_id]. *)
Definition projects_select_policy (uid : option uuid) (p : project) : bool :=
  match uid with Some u => (u =? proj_owner_id p)%N | None => false end.

Definition projects_insert_check (uid : option uuid) (p : project) : bool :=
  match uid with Some u => (u =? proj_owner_id p)%N | None => false end.

(** ** Statements on [project_invitations] *)

(** A row a client [DELETE ... WHERE where_] removes: it matches the filter
    and passes the [DELETE] policy and, the filter reading columns, the
    [SELECT] policy. Rows that do not pass are skipped without an error. *)
Definition invitation_deleted (d : db) (uid : option uuid)
    (where_ : project_invitation -> bool) (r : project_invitation) : bool :=
  where_ r && invitations_delete_policy d uid r && invitations_select_policy d uid r.

Definition delete_invitations (d : db) (uid : option uuid)
    (where_ : project_invitation -> bool) : db :=
  set_project_invitations d
    (filter (fun r => negb (invitation_deleted d uid where_ r)) (project_invitations d)).

(** [UNIQUE(project_id, email)] *)
Definition same_project_email (project_id : uuid) (email : string)
    (r : project_invitation) : bool :=
  (inv_project_id r =? project_id)%N && String.eqb (inv_email r) email.

(** [INSERT INTO project_invitations] by a client: the [WITH CHECK] policy
    is evaluated on the new row before the row reaches the indexes. The
    [.select('token').single()] that follows reads the new row back under
    the [SELECT] policies, which hold whenever the insert check does. *)
Definition insert_invitation (d : db) (uid : option uuid)
    (r : project_invitation) : result db :=
  if negb (invitations_insert_check d uid r) then
    Err (rls_violation "project_invitations")
  else if existsb (fun r' => (inv_id r' =? inv_id r)%N) (project_invitations d) then
    Err (unique_violation "project_invitations_pkey")
  else if existsb (same_project_email (inv_project_id r) (inv_email r))
                  (project_invitations d) then
    Err (unique_violation "project_invitations_project_id_email_key")
  else Ok (set_project_invitations d (project_invitations d ++ [r])).

(** The row an insert of [(project_id, email, role, invited_by)] builds:
    the other columns take their defaults. *)
Definition new_invitation (project_id : uuid) (email : string) (role : member_role)
    (invited_by : uuid) (new_id new_token : uuid) (now : timestamptz)
    : project_invitation :=
  {| inv_id := new_id; inv_project_id := project_id; inv_email := email;
     inv_role := role; inv_invited_by := invited_by; inv_token := new_token;
     inv_expires_at := (now + interval_7_days)%Z; inv_accepted_at := None;
     inv_created_at := now |}.

(** ** Statements on [project_members] *)

Definition member_deleted (d : db) (uid : option uuid)
    (where_ : project_member -> bool) (m : project_member) : bool :=
  where_ m && members_delete_policy d uid m && members_select_policy d uid m.

Definition delete_members (d : db) (uid : option uuid)
    (where_ : project_member -> bool) : db :=
  set_project_members d
    (filter (fun m => negb (member_deleted d uid where_ m)) (project_members d)).

Definition set_role (m : project_member) (role : member_role) (now : timestamptz)
    : project_member :=
  {| pm_id := pm_id m; pm_project_id := pm_project_id m; pm_user_id := pm_user_id m;
     pm_role := role; pm_invited_by := pm_invited_by m;
     pm_invited_at := pm_invited_at m; pm_joined_at := pm_joined_at m;
     pm_created_at := pm_created_at m;
     (* trigger update_project_members_updated_at *)
     pm_updated_at := now |}.

(** [UPDATE project_members SET role = ... WHERE where_] by a client. The
    update leaves [project_id] and [user_id] alone, so a row that passes
    [USING] passes [WITH CHECK] as well. *)
Definition update_members_role (d : db) (uid : option uuid)
    (where_ : project_member -> bool) (role : member_role) (now : timestamptz) : db :=
  set_project_members d
    (map (fun m => if where_ m && members_update_policy d uid m
                      && members_select_policy d uid m
                   then set_role m role now else m)
         (project_members d)).

(** [UNIQUE(project_id, user_id)] *)
Definition same_project_user (project_id user_id : uuid) (m : project_member) : bool :=
  (pm_project_id m =? project_id)%N && (pm_user_id m =? user_id)%N.

(** The [DO UPDATE SET joined_at = now(), role = ...] arm of the upsert,
    followed by the [BEFORE UPDATE] trigger on [updated_at]. *)
Definition on_conflict_update (m : project_member) (role : member_role)
    (now : timestamptz) : project_member :=
  {| pm_id := pm_id m; pm_project_id := pm_project_id m; pm_user_id := pm_user_id m;
     pm_role := role; pm_invited_by := pm_invited_by m;
     pm_invited_at := pm_invited_at m; pm_joined_at := Some now;
     pm_created_at := pm_created_at m; pm_updated_at := now |}.

(** [INSERT INTO project_members (project_id, user_id, role, invited_by,
    joined_at) VALUES (...) ON CONFLICT (project_id, user_id) DO UPDATE ...],
    run inside a [SECURITY DEFINER] function: no policy applies. The
    arbiter index is consulted first; the primary key can still clash. *)
Definition upsert_member (ms : list project_member) (project_id user_id : uuid)
    (role : member_role) (invited_by : uuid) (new_id : uuid) (now : timestamptz)
    : result (list project_member) :=
  if existsb (same_project_user project_id user_id) ms then
    Ok (map (fun m => if same_project_user project_id user_id m
                      then on_conflict_update m role now else m) ms)
  else if existsb (fun m => (pm_id m =? new_id)%N) ms then
    Err (unique_violation "project_members_pkey")
  else
    Ok (ms ++ [ {| pm_id := new_id; pm_project_id := project_id; pm_user_id := user_id;
                   pm_role := role; pm_invited_by := invited_by; pm_invited_at := now;
                   pm_joined_at := Some now; pm_created_at := now;
                   pm_updated_at := now |} ]).

(** ** [public.accept_invitation(invitation_token UUID) RETURNS JSON] *)

Inductive json :=
| json_success (project_id : uuid)
| json_failure (error : string).

(** The [WHERE] clause of the lookup. *)
Definition acceptable (invitation_token : uuid) (now : timestamptz)
    (r : project_invitation) : bool :=
  (inv_token r =? invitation_token)%N
  && (now <? inv_expires_at r)%Z
  && is_null (inv_accepted_at r).

Definition select_invitation (d : db) (invitation_token : uuid) (now : timestamptz)
    : option project_invitation :=
  find (acceptable invitation_token now) (project_invitations d).

(** [(SELECT email FROM auth.users WHERE id = auth.uid()) != invitation_record.email] *)
Definition email_mismatch (d : db) (uid : option uuid)
    (invitation_record : project_invitation) : bool :=
  sql_is_true (sql_ne (get_current_user_email d uid) (Some (inv_email invitation_record))).

Definition mark_accepted (r : project_invitation) (now : timestamptz)
    : project_invitation :=
  {| inv_id := inv_id r; inv_project_id := inv_project_id r; inv_email := inv_email r;
     inv_role := inv_role r; inv_invited_by := inv_invited_by r;
     inv_token := inv_token r; inv_expires_at := inv_expires_at r;
     inv_accepted_at := Some now; inv_created_at := inv_created_at r |}.

(** The function runs in one transaction: [Err] stands for a raised
    exception, after which the database is the one before the call. *)
Definition accept_invitation (d : db) (uid : option uuid) (invitation_token : uuid)
    (new_member_id : uuid) (now : timestamptz) : result (db * json) :=
  match select_invitation d invitation_token now with
  | None => Ok (d, json_failure "Invalid or expired invitation")
  | Some invitation_record =>
      if email_mismatch d uid invitation_record then
        Ok (d, json_failure "Email does not match invitation")
      else
        match uid with
        | None => Err (not_null_violation "user_id")
        | Some u =>
            match upsert_member (project_members d) (inv_project_id invitation_record) u
                    (inv_role invitation_record) (inv_invited_by invitation_record)
                    new_member_id now with
            | Err e => Err e
            | Ok ms =>
                Ok (set_project_invitations (set_project_members d ms)
                      (map (fun r => if (inv_id r =? inv_id invitation_record)%N
                                     then mark_accepted r now else r)
                           (project_invitations d)),
                    json_success (inv_project_id invitation_record))
            end
        end
  end.

(** ** Project creation: the insert and its two [AFTER INSERT] triggers *)

(** Trigger function [add_owner_as_member]. *)
Definition add_owner_as_member (d : db) (NEW : project) (new_member_id : uuid)
    (now : timestamptz) : result db :=
  if existsb (fun m => (pm_id m =? new_member_id)%N) (project_members d) then
    Err (unique_violation "project_members_pkey")
  else if existsb (same_project_user (proj_id NEW) (proj_owner_id NEW))
                  (project_members d) then
    Err (unique_violation "project_members_project_id_user_id_key")
  else
    Ok (set_project_members d
          (project_members d ++
           [ {| pm_id := new_member_id; pm_project_id := proj_id NEW;
                pm_user_id := proj_owner_id NEW; pm_role := owner;
                pm_invited_by := proj_owner_id NEW; pm_invited_at := now;
                pm_joined_at := Some now; pm_created_at := now;
                pm_updated_at := now |} ])).

Definition insert_column (d : db) (c : column) : result db :=
  if existsb (fun c' => (col_id c' =? col_id c)%N) (columns d) then
    Err (unique_violation "columns_pkey")
  else Ok (set_columns d (columns d ++ [c])).

(** Trigger function [create_default_columns]. *)
Definition create_default_columns (d : db) (NEW : project)
    (c0 c1 c2 : uuid) (now : timestamptz) : result db :=
  let mk id name pos :=
    {| col_id := id; col_project_id := proj_id NEW; col_name := name;
       col_position := pos; col_created_at := now |} in
  match insert_column d (mk c0 "To Do"%string 0%Z) with
  | Err e => Err e
  | Ok d0 =>
      match insert_column d0 (mk c1 "In Progress"%string 1%Z) with
      | Err e => Err e
      | Ok d1 => insert_column d1 (mk c2 "Done"%string 2%Z)
      end
  end.

(** [INSERT INTO projects (name, description, owner_id)] by a client. The
    triggers fire in the order of their names,
    [add_owner_as_member_trigger] before [on_project_created]; an error in
    either aborts the insert. *)
Definition insert_project (d : db) (uid : option uuid)
    (name : string) (description : option string) (owner_id : uuid)
    (new_id new_member_id c0 c1 c2 : uuid) (now : timestamptz) : result db :=
  let NEW := {| proj_id := new_id; proj_name := name; proj_description := description;
                proj_owner_id := owner_id; proj_created_at := now;
                proj_updated_at := now |} in
  if negb (projects_insert_check uid NEW) then Err (rls_violation "projects")
  else if existsb (fun p => (proj_id p =? new_id)%N) (projects d) then
    Err (unique_violation "projects_pkey")
  else if negb (existsb (fun a => (au_id a =? owner_id)%N) (auth_users d)) then
    Err (foreign_key_violation "projects_owner_id_fkey")
  else
    match add_owner_as_member (set_projects d (projects d ++ [NEW])) NEW
            new_member_id now with
    | Err e => Err e
    | Ok d1 => create_default_columns d1 NEW c0 c1 c2 now
    end.

(** ** Client queries *)

(** PostgREST [.single()]: exactly one row, or an error. *)
Definition single {A} (rows : list A) : option A :=
  match rows with
  | [r] => Some r
  | _ => None
  end.

(** [fetchTeamData], the members query. *)
Definition fetch_members (d : db) (uid : option uuid) (projectId : uuid)
    : list project_member :=
  filter (fun m => members_select_policy d uid m
                   && (pm_project_id m =? projectId)%N
                   && is_not_null (pm_joined_at m))
         (project_members d).

(** [fetchTeamData], the pending invitations query; [now] is the client's
    clock. *)
Definition fetch_pending_invitations (d : db) (uid : option uuid) (projectId : uuid)
    (now : timestamptz) : list project_invitation :=
  filter (fun r => invitations_select_policy d uid r
                   && (inv_project_id r =? projectId)%N
                   && is_null (inv_accepted_at r)
                   && (now <? inv_expires_at r)%Z)
         (project_invitations d).

(** [fetchInvitation] of the acceptance page, the query. *)
Definition fetch_invitation (d : db) (uid : option uuid) (token : uuid)
    (now : timestamptz) : option project_invitation :=
  single (filter (fun r => invitations_select_policy d uid r
                           && (inv_token r =? token)%N
                           && is_null (inv_accepted_at r)
                           && (now <? inv_expires_at r)%Z)
                 (project_invitations d)).

(** What the acceptance page does with the answer. *)
Inductive invitation_page :=
| page_invalid_invitation
| page_email_mismatch
| page_need_auth
| page_accept (invitation : project_invitation).

Definition fetchInvitation (d : db) (uid : option uuid) (token : uuid)
    (now : timestamptz) : invitation_page :=
  match fetch_invitation d uid token now with
  | None => page_invalid_invitation
  | Some data =>
      match uid with
      | None => page_need_auth
      | Some _ =>
          (* user.email === data.email *)
          match get_current_user_email d uid with
          | Some e => if String.eqb e (inv_email data) then page_accept data
                      else page_email_mismatch
          | None => page_email_mismatch
          end
      end
  end.

(** ** Client handlers of [TeamManagement] *)

Record toast := {
  title : string;
  description : string;
  variant : option string
}.

Record InvitationRequest := {
  req_email : string;
  req_role : member_role;
  req_projectName : string;
  req_inviterName : string;
  req_invitationToken : uuid
}.

Record invite_result := {
  ir_db : db;
  ir_toast : option toast;
  (** the error [console.error('Error inviting user:', error)] logs *)
  ir_error : option pg_error;
  (** the request handed to the [send-invitation] function *)
  ir_request : option InvitationRequest;
  (** [setInviteEmail(''); setIsDialogOpen(false); fetchTeamData()] ran *)
  ir_completed : bool
}.

Definition toast_warning : toast :=
  {| title := "Warning";
     description := "Invitation created but email could not be sent. Please check your email configuration.";
     variant := Some "destructive"%string |}.

Definition toast_sent (inviteEmail : string) : toast :=
  {| title := "Invitation sent";
     description := "Invitation email sent to " ++ inviteEmail;
     variant := None |}.

Definition toast_invite_error : toast :=
  {| title := "Error";
     description := "Failed to send invitation";
     variant := Some "destructive"%string |}.

(** The filter of the supersession delete. *)
Definition pending_for (projectId : uuid) (email : string)
    (r : project_invitation) : bool :=
  (inv_project_id r =? projectId)%N
  && String.eqb (inv_email r) email
  && is_null (inv_accepted_at r).

(** The menu of a member row is rendered under
    [isOwner && member.user_id !== userId]. *)
Definition member_menu_shown (isOwner : bool) (userId : uuid)
    (member : project_member) : bool :=
  isOwner && negb (pm_user_id member =? userId)%N.

(** [setIsOwner(data.owner_id === user?.id)] of the project page. *)
Definition page_isOwner (p : project) (userId : uuid) : bool :=
  (proj_owner_id p =? userId)%N.

Section Client.

(** The [send-invitation] edge function is an external collaborator:
    [send_invitation req] is [true] when the invocation reports an
    error. *)
Variable send_invitation : InvitationRequest -> bool.

(** [handleInviteUser]. The delete and the insert are two requests, not
    one transaction: the delete stays when the insert fails. *)
Definition handleInviteUser (d : db) (projectId userId : uuid)
    (inviteEmail : string) (inviteRole : member_role)
    (new_id new_token : uuid) (now : timestamptz) : invite_result :=
  if negb (truthy (trim inviteEmail)) then
    {| ir_db := d; ir_toast := None; ir_error := None; ir_request := None;
       ir_completed := false |}
  else
    let email := toLowerCase (trim inviteEmail) in
    let d1 := delete_invitations d (Some userId) (pending_for projectId email) in
    match insert_invitation d1 (Some userId)
            (new_invitation projectId email inviteRole userId new_id new_token now) with
    | Err insertError =>
        {| ir_db := d1; ir_toast := Some toast_invite_error;
           ir_error := Some insertError; ir_request := None;
           ir_completed := false |}
    | Ok d2 =>
        let projectData :=
          single (filter (fun p => projects_select_policy (Some userId) p
                                   && (proj_id p =? projectId)%N) (projects d2)) in
        let inviterData :=
          single (filter (fun p => (prof_user_id p =? userId)%N) (profiles d2)) in
        let req :=
          {| req_email := email; req_role := inviteRole;
             req_projectName := or_default (option_map proj_name projectData) "Project";
             req_inviterName :=
               or_default (match inviterData with
                           | Some p => prof_full_name p
                           | None => None
                           end) "Someone";
             req_invitationToken := new_token |} in
        let emailError := send_invitation req in
        {| ir_db := d2;
           ir_toast := Some (if emailError then toast_warning else toast_sent inviteEmail);
           ir_error := None; ir_request := Some req; ir_completed := true |}
    end.

End Client.

(** [handleRemoveMember]: [.from('project_members').delete().eq('id', memberId)] *)
Definition handleRemoveMember (d : db) (userId : uuid) (memberId : uuid) : db :=
  delete_members d (Some userId) (fun m => (pm_id m =? memberId)%N).

(** [handleRevokeInvitation]: [.from('project_invitations').delete().eq('id', invitationId)] *)
Definition handleRevokeInvitation (d : db) (userId : uuid) (invitationId : uuid) : db :=
  delete_invitations d (Some userId) (fun r => (inv_id r =? invitationId)%N).

(** [handleUpdateRole]: [.update({ role: newRole }).eq('id', memberId)] *)
Definition handleUpdateRole (d : db) (userId : uuid) (memberId : uuid)
    (newRole : member_role) (now : timestamptz) : db :=
  update_members_role d (Some userId) (fun m => (pm_id m =? memberId)%N) newRole now.

(** The "Remove" entry of a member row: there is one only when the menu is
    rendered, and it calls [handleRemoveMember] with the row's id. *)
Definition remove_member_entry (d : db) (isOwner : bool) (userId : uuid)
    (member : project_member) : option db :=
  if member_menu_shown isOwner userId member
  then Some (handleRemoveMember d userId (pm_id member))
  else None.

(** ** Interleavings: the statements clients issue, one at a time *)

Inductive statement :=
| DeletePendingInvitations (userId projectId : uuid) (email : string)
| InsertInvitation (userId projectId : uuid) (email : string) (role : member_role)
    (new_id new_token : uuid) (now : timestamptz)
| DeleteInvitation (userId invitationId : uuid)
| AcceptInvitation (uid : option uuid) (token new_member_id : uuid) (now : timestamptz)
| DeleteMember (userId memberId : uuid)
| UpdateRole (userId memberId : uuid) (newRole : member_role) (now : timestamptz)
| InsertProject (uid : option uuid) (name : string) (description : option string)
    (owner_id new_id new_member_id c0 c1 c2 : uuid) (now : timestamptz).

(** A statement that raises leaves the database as it was. *)
Definition or_unchanged (d : db) (r : result db) : db :=
  match r with Ok d' => d' | Err _ => d end.

Definition exec (d : db) (s : statement) : db :=
  match s with
  | DeletePendingInvitations userId projectId email =>
      delete_invitations d (Some userId) (pending_for projectId email)
  | InsertInvitation userId projectId email role new_id new_token now =>
      or_unchanged d
        (insert_invitation d (Some userId)
           (new_invitation projectId email role userId new_id new_token now))
  | DeleteInvitation userId invitationId => handleRevokeInvitation d userId invitationId
  | AcceptInvitation uid token new_member_id now =>
      match accept_invitation d uid token new_member_id now with
      | Ok (d', _) => d'
      | Err _ => d
      end
  | DeleteMember userId memberId => handleRemoveMember d userId memberId
  | UpdateRole userId memberId newRole now => handleUpdateRole d userId memberId newRole now
  | InsertProject uid name description owner_id new_id new_member_id c0 c1 c2 now =>
      or_unchanged d
        (insert_project d uid name description owner_id new_id new_member_id c0 c1 c2 now)
  end.

Definition run (d : db) (l : list statement) : db := fold_left exec l d.

(** ** Table constraints and the invariants of the spec *)

(** At most one unaccepted invitation per (project, email). *)
Definition at_most_one_pending (d : db) : Prop :=
  forall projectId email,
    (List.length (filter (pending_for projectId email) (project_invitations d)) <= 1)%nat.

(** [UNIQUE(project_id, user_id)] on [project_members]. *)
Definition members_unique (d : db) : Prop :=
  forall project_id user_id,
    (List.length (filter (same_project_user project_id user_id) (project_members d)) <= 1)%nat.

(** The same constraint as a check that runs. *)
Definition members_unique_b (d : db) : bool :=
  forallb (fun m =>
             (List.length (filter (same_project_user (pm_project_id m) (pm_user_id m))
                             (project_members d)) <=? 1)%nat)
          (project_members d).

Definition at_most_one_pending_b (d : db) : bool :=
  forallb (fun r =>
             (List.length (filter (pending_for (inv_project_id r) (inv_email r))
                             (project_invitations d)) <=? 1)%nat)
          (project_invitations d).

(** The token names one invitation. *)
Definition token_identifies (d : db) (inv : project_invitation) : Prop :=
  forall r, In r (project_invitations d) -> inv_token r = inv_token inv -> r = inv.

(** ** A sample database *)

Module Sample.

Definition alice : uuid := 1%N.
Definition bob : uuid := 2%N.
Definition carol : uuid := 3%N.
Definition alpha : uuid := 10%N.

Definition users : list auth_user :=
  [ {| au_id := alice; au_email := Some "alice@x.com"%string |};
    {| au_id := bob; au_email := Some "bob@x.com"%string |};
    {| au_id := carol; au_email := Some "Carol@x.com"%string |} ].

Definition alpha_project : project :=
  {| proj_id := alpha; proj_name := "Alpha"; proj_description := None;
     proj_owner_id := alice; proj_created_at := 0%Z; proj_updated_at := 0%Z |}.

Definition alice_membership : project_member :=
  {| pm_id := 100%N; pm_project_id := alpha; pm_user_id := alice; pm_role := owner;
     pm_invited_by := alice; pm_invited_at := 0%Z; pm_joined_at := Some 0%Z;
     pm_created_at := 0%Z; pm_updated_at := 0%Z |}.

Definition bob_membership : project_member :=
  {| pm_id := 101%N; pm_project_id := alpha; pm_user_id := bob;
     pm_role := contributor; pm_invited_by := alice; pm_invited_at := 5%Z;
     pm_joined_at := Some 6%Z; pm_created_at := 5%Z; pm_updated_at := 6%Z |}.

Definition bob_invitation : project_invitation :=
  new_invitation alpha "bob@x.com" contributor alice 200%N 777%N 1000%Z.

Definition carol_invitation : project_invitation :=
  new_invitation alpha "carol@x.com" contributor alice 201%N 778%N 1000%Z.

(** Alice owns Alpha and has invited Bob. *)
Definition db0 : db :=
  {| auth_users := users; profiles := [];
     projects := [alpha_project]; columns := [];
     project_members := [alice_membership];
     project_invitations := [bob_invitation] |}.

(** Alice owns Alpha, Bob has joined as a contributor. *)
Definition db1 : db :=
  {| auth_users := users; profiles := [];
     projects := [alpha_project]; columns := [];
     project_members := [alice_membership; bob_membership];
     project_invitations := [mark_accepted bob_invitation 6%Z; carol_invitation] |}.

End Sample.

(** ** The backfill migration for owners without a membership

    [INSERT INTO project_members (...) SELECT p.id, p.owner_id, 'owner',
    p.owner_id, now() FROM projects p LEFT JOIN project_members pm ON
    p.id = pm.project_id AND p.owner_id = pm.user_id WHERE pm.id IS NULL
    ON CONFLICT (project_id, user_id) DO NOTHING]. The [n]-th selected row
    draws the id [ids n]. *)

Definition owner_row_missing (ms : list project_member) (p : project) : bool :=
  negb (existsb (same_project_user (proj_id p) (proj_owner_id p)) ms).

Fixpoint backfill_insert (rows : list project) (ids : nat -> uuid) (n : nat)
    (ms : list project_member) (now : timestamptz) : result (list project_member) :=
  match rows with
  | [] => Ok ms
  | p :: rest =>
      if existsb (same_project_user (proj_id p) (proj_owner_id p)) ms then
        (* ON CONFLICT DO NOTHING *)
        backfill_insert rest ids (S n) ms now
      else if existsb (fun m => (pm_id m =? ids n)%N) ms then
        Err (unique_violation "project_members_pkey")
      else
        backfill_insert rest ids (S n)
          (ms ++ [ {| pm_id := ids n; pm_project_id := proj_id p;
                      pm_user_id := proj_owner_id p; pm_role := owner;
                      pm_invited_by := proj_owner_id p; pm_invited_at := now;
                      pm_joined_at := Some now; pm_created_at := now;
                      pm_updated_at := now |} ])
          now
  end.

Definition backfill_owner_memberships (d : db) (ids : nat -> uuid)
    (now : timestamptz) : result db :=
  match backfill_insert (filter (owner_row_missing (project_members d)) (projects d))
          ids 0 (project_members d) now with
  | Ok ms => Ok (set_project_members d ms)
  | Err e => Err e
  end.

(** ** The board state of [KanbanBoard] *)

Inductive priority := low | medium | high | urgent.

Inductive status := todo | in_progress | done.

(** [interface Issue] *)
Record issue := {
  iss_id : uuid;
  iss_title : string;
  iss_description : string;
  iss_priority : priority;
  iss_status : status;
  iss_position : Z;
  iss_column_id : uuid;
  iss_project_id : uuid;
  iss_assignee_id : option uuid;
  iss_reporter_id : uuid;
  iss_created_at : timestamptz;
  iss_updated_at : timestamptz
}.

(** [{ ...issue, column_id: newColumnId }] *)
Definition with_column_id (i : issue) (newColumnId : uuid) : issue :=
  {| iss_id := iss_id i; iss_title := iss_title i;
     iss_description := iss_description i; iss_priority := iss_priority i;
     iss_status := iss_status i; iss_position := iss_position i;
     iss_column_id := newColumnId; iss_project_id := iss_project_id i;
     iss_assignee_id := iss_assignee_id i; iss_reporter_id := iss_reporter_id i;
     iss_created_at := iss_created_at i; iss_updated_at := iss_updated_at i |}.

(** [getIssuesForColumn] *)
Definition getIssuesForColumn (issues : list issue) (columnId : uuid) : list issue :=
  filter (fun i => (iss_column_id i =? columnId)%N) issues.

(** The [setIssues(prevIssues => prevIssues.map(...))] of [handleDragOver]. *)
Definition move_issue (issues : list issue) (activeId newColumnId : uuid) : list issue :=
  map (fun i => if (iss_id i =? activeId)%N then with_column_id i newColumnId else i)
      issues.

(** [handleDragOver]: the issue list it leaves; [over] is [event.over]. *)
Definition handleDragOver (issues : list issue) (columns : list column)
    (activeId : uuid) (over : option uuid) : list issue :=
  match over with
  | None => issues
  | Some overId =>
      match find (fun i => (iss_id i =? activeId)%N) issues with
      | None => issues
      | Some activeIssue =>
          if existsb (fun c => (col_id c =? overId)%N) columns then
            if negb (iss_column_id activeIssue =? overId)%N
            then move_issue issues activeId overId
            else issues
          else
            match find (fun i => (iss_id i =? overId)%N) issues with
            | Some overIssue =>
                if negb (iss_column_id activeIssue =? iss_column_id overIssue)%N
                then move_issue issues activeId (iss_column_id overIssue)
                else issues
            | None => issues
            end
      end
  end.

(** [handleIssueSubmit], the position of a new issue:
    [Math.max(...getIssuesForColumn(selectedColumnId).map(i => i.position), -1) + 1] *)
Definition maxPosition (issues : list issue) (selectedColumnId : uuid) : Z :=
  fold_right Z.max (-1)%Z (map iss_position (getIssuesForColumn issues selectedColumnId)).

Definition new_issue_position (issues : list issue) (selectedColumnId : uuid) : Z :=
  (maxPosition issues selectedColumnId + 1)%Z.

(** ** The project page *)

(** [fetchProject]: the project and the [isOwner] flag the page keeps, or
    nothing when [.single()] finds no row (the page then shows "Project
    not found" and leaves). The effect runs for a signed-in user only. *)
Definition fetchProject (d : db) (userId : uuid) (id : uuid) : option (project * bool) :=
  match single (filter (fun p => projects_select_policy (Some userId) p
                                 && (proj_id p =? id)%N) (projects d)) with
  | Some data => Some (data, page_isOwner data userId)
  | None => None
  end.

(** ** More table constraints *)

(** [UNIQUE(project_id, email)] on [project_invitations]. *)
Definition invitations_unique (d : db) : Prop :=
  forall project_id email,
    (List.length (filter (same_project_email project_id email)
                    (project_invitations d)) <= 1)%nat.

(** The rows the backfill adds. *)
Definition backfilled (now : timestamptz) (m : project_member) : Prop :=
  pm_role m = owner /\ pm_joined_at m = Some now /\ pm_invited_by m = pm_user_id m.

(** ** A sample board *)

Definition sample_issue (id col : uuid) (pos : Z) : issue :=
  {| iss_id := id; iss_title := "Crash on save"; iss_description := "";
     iss_priority := medium; iss_status := todo; iss_position := pos;
     iss_column_id := col; iss_project_id := Sample.alpha;
     iss_assignee_id := None; iss_reporter_id := Sample.alice;
     iss_created_at := 0%Z; iss_updated_at := 0%Z |}.

Definition sample_columns : list column :=
  [ {| col_id := 20%N; col_project_id := Sample.alpha; col_name := "To Do";
       col_position := 0%Z; col_created_at := 0%Z |};
    {| col_id := 21%N; col_project_id := Sample.alpha; col_name := "In Progress";
       col_position := 1%Z; col_created_at := 0%Z |} ].

Definition sample_issues : list issue :=
  [ sample_issue 30%N 20%N 0%Z; sample_issue 31%N 20%N 1%Z;
    sample_issue 32%N 21%N 0%Z ].

(** ** A signed-in account without an email

    Dave signed in by a way that leaves [auth.users.email] empty; the
    rest is [Sample.db0]. *)

Definition sample_dave : uuid := 4%N.

Definition sample_db_no_email : db :=
  {| auth_users := Sample.users ++ [ {| au_id := sample_dave; au_email := None |} ];
     profiles := [];
     projects := [Sample.alpha_project]; columns := [];
     project_members := [Sample.alice_membership];
     project_invitations := [Sample.bob_invitation] |}.

(** ** Strings made of white space only *)

Fixpoint all_white_space (s : string) : bool :=
  match s with
  | EmptyString => true
  | String c s' => is_white_space c && all_white_space s'
  end.

(** Strings of ASCII characters, on which [trim] and [toLowerCase] above
    are [String.prototype.trim] and [String.prototype.toLowerCase]: the
    white space of JavaScript below U+0080 is tab, line feed, vertical
    tab, form feed, carriage return and space, and the only letters
    below U+0080 that lower-casing changes are A to Z. *)
Fixpoint ascii_only (s : string) : bool :=
  match s with
  | EmptyString => true
  | String c s' => (nat_of_ascii c <? 128)%nat && ascii_only s'
  end.

(** ** Lists *)

Section ListFacts.

Context {A : Type}.
Variable P : A -> bool.

Lemma existsb_false_filter_nil (l : list A) :
  existsb P l = false -> filter P l = [].
Proof.
  induction l as [|a l IH]; simpl; intros H; [reflexivity|].
  apply orb_false_iff in H as [Ha Hl]. rewrite Ha. auto.
Qed.

Lemma existsb_false_forall (l : list A) :
  (forall x, In x l -> P x = false) -> existsb P l = false.
Proof.
  induction l as [|a l IH]; simpl; intros H; [reflexivity|].
  rewrite (H a) by auto. apply IH. intros; apply H; auto.
Qed.

Lemma forall_false_filter_nil (l : list A) :
  (forall x, In x l -> P x = false) -> filter P l = [].
Proof.
  induction l as [|a l IH]; simpl; intros H; [reflexivity|].
  rewrite (H a) by auto. apply IH. intros; apply H; auto.
Qed.

Lemma find_unique (l : list A) (x : A) :
  In x l -> P x = true ->
  (forall y, In y l -> P y = true -> y = x) ->
  find P l = Some x.
Proof.
  induction l as [|a l IH]; simpl; [contradiction|].
  intros Hin Hx Huniq. destruct (P a) eqn:E.
  - f_equal. apply Huniq; auto.
  - destruct Hin as [->|Hin]; [congruence|]. apply IH; auto.
Qed.

Lemma find_none_forall (l : list A) :
  (forall x, In x l -> P x = false) -> find P l = None.
Proof.
  induction l as [|a l IH]; simpl; intros H; [reflexivity|].
  rewrite (H a) by auto. apply IH. intros; apply H; auto.
Qed.

Lemma length_filter_sub (Q : A -> bool) (l : list A) :
  (List.length (filter P (filter Q l)) <= List.length (filter P l))%nat.
Proof.
  induction l as [|a l IH]; simpl; [lia|].
  destruct (Q a), (P a) eqn:E; simpl; rewrite ?E; simpl; lia.
Qed.

Lemma length_filter_map (f : A -> A) (l : list A) :
  (forall x, P (f x) = true -> P x = true) ->
  (List.length (filter P (map f l)) <= List.length (filter P l))%nat.
Proof.
  intros Hf. induction l as [|a l IH]; simpl; [lia|].
  destruct (P (f a)) eqn:E.
  - rewrite (Hf a E). simpl. lia.
  - destruct (P a); simpl; lia.
Qed.

Lemma filter_map_stable (f : A -> A) (l : list A) :
  (forall x, P (f x) = P x) ->
  filter P (map f l) = map f (filter P l).
Proof.
  intros Hf. induction l as [|a l IH]; simpl; [reflexivity|].
  rewrite Hf. destruct (P a); simpl; rewrite IH; reflexivity.
Qed.

Lemma at_most_one_eq (l : list A) (x y : A) :
  (List.length (filter P l) <= 1)%nat ->
  In x l -> In y l -> P x = true -> P y = true -> x = y.
Proof.
  intros Hlen Hx Hy Px Py.
  assert (Hfx : In x (filter P l)) by (apply filter_In; auto).
  assert (Hfy : In y (filter P l)) by (apply filter_In; auto).
  destruct (filter P l) as [|a [|b t]]; simpl in *; try lia; try contradiction.
  destruct Hfx as [<-|[]], Hfy as [<-|[]]. reflexivity.
Qed.

End ListFacts.

Lemma same_project_user_spec (p u : uuid) (m : project_member) :
  same_project_user p u m = true <-> pm_project_id m = p /\ pm_user_id m = u.
Proof. unfold same_project_user. rewrite andb_true_iff, !N.eqb_eq. tauto. Qed.

Lemma members_unique_b_sound (d : db) :
  members_unique_b d = true -> members_unique d.
Proof.
  unfold members_unique_b, members_unique. intros H p u.
  destruct (filter (same_project_user p u) (project_members d)) as [|a t] eqn:E;
    [simpl; lia|].
  assert (Ha : In a (filter (same_project_user p u) (project_members d)))
    by (rewrite E; simpl; auto).
  apply filter_In in Ha as [Hin Hpair].
  apply same_project_user_spec in Hpair as [<- <-].
  rewrite forallb_forall in H. specialize (H a Hin).
  apply Nat.leb_le in H. rewrite E in H. exact H.
Defined.

Lemma eqb_string_neq (a b : string) : a <> b -> String.eqb a b = false.
Proof. intros H. apply String.eqb_neq. exact H. Qed.

(** ** Facts about [accept_invitation] *)

Lemma acceptable_spec (tok : uuid) (now : timestamptz) (r : project_invitation) :
  acceptable tok now r = true <->
  inv_token r = tok /\ (now < inv_expires_at r)%Z /\ inv_accepted_at r = None.
Proof.
  unfold acceptable. rewrite !andb_true_iff, N.eqb_eq, Z.ltb_lt.
  destruct (inv_accepted_at r); simpl; intuition congruence.
Qed.

Lemma select_invitation_found (d : db) (inv : project_invitation) (now : timestamptz) :
  In inv (project_invitations d) ->
  token_identifies d inv ->
  inv_accepted_at inv = None ->
  (now < inv_expires_at inv)%Z ->
  select_invitation d (inv_token inv) now = Some inv.
Proof.
  intros Hin Htok Hacc Hexp. unfold select_invitation.
  apply find_unique; auto.
  - apply acceptable_spec; auto.
  - intros y Hy Hacy. apply acceptable_spec in Hacy as (Ht & _). auto.
Qed.

Lemma select_invitation_sound (d : db) (tok : uuid) (now : timestamptz)
    (r : project_invitation) :
  select_invitation d tok now = Some r ->
  In r (project_invitations d) /\ inv_token r = tok
  /\ (now < inv_expires_at r)%Z /\ inv_accepted_at r = None.
Proof.
  unfold select_invitation. intros H. apply find_some in H as [Hin Hacc].
  apply acceptable_spec in Hacc. tauto.
Qed.

Lemma email_mismatch_same (d : db) (uid : option uuid) (inv : project_invitation) :
  get_current_user_email d uid = Some (inv_email inv) ->
  email_mismatch d uid inv = false.
Proof.
  intros H. unfold email_mismatch. rewrite H. simpl.
  rewrite String.eqb_refl. reflexivity.
Qed.

Lemma email_mismatch_other (d : db) (uid : option uuid) (e : string)
    (inv : project_invitation) :
  get_current_user_email d uid = Some e ->
  e <> inv_email inv ->
  email_mismatch d uid inv = true.
Proof.
  intros H Hne. unfold email_mismatch. rewrite H. simpl.
  rewrite eqb_string_neq by assumption. reflexivity.
Qed.

(** A caller without an account email is not stopped by the email step:
    the comparison is [NULL], and [IF NULL] does not take the branch. *)
Lemma email_mismatch_null (d : db) (uid : option uuid) (inv : project_invitation) :
  get_current_user_email d uid = None ->
  email_mismatch d uid inv = false.
Proof. intros H. unfold email_mismatch. rewrite H. reflexivity. Qed.

Lemma fresh_id_not_found (ms : list project_member) (new_id : uuid) :
  (forall m, In m ms -> pm_id m <> new_id) ->
  existsb (fun m => (pm_id m =? new_id)%N) ms = false.
Proof.
  intros H. induction ms as [|a ms IH]; simpl; [reflexivity|].
  rewrite IH by (intros; apply H; simpl; auto).
  rewrite orb_false_r. apply N.eqb_neq. apply H. simpl; auto.
Qed.

Lemma same_project_user_on_conflict (p u : uuid) (role : member_role)
    (now : timestamptz) (m : project_member) :
  same_project_user p u
    (if same_project_user p u m then on_conflict_update m role now else m)
  = same_project_user p u m.
Proof. destruct (same_project_user p u m) eqn:E; [exact E | exact E]. Qed.

(** The upsert always leaves exactly one row for the pair, with the
    invitation's role and [joined_at] set. *)
Lemma upsert_member_one_row (ms : list project_member) (p u : uuid)
    (role : member_role) (invited_by new_id : uuid) (now : timestamptz) :
  (List.length (filter (same_project_user p u) ms) <= 1)%nat ->
  (forall m, In m ms -> pm_id m <> new_id) ->
  exists ms' m,
    upsert_member ms p u role invited_by new_id now = Ok ms'
    /\ filter (same_project_user p u) ms' = [m]
    /\ pm_role m = role /\ pm_joined_at m = Some now.
Proof.
  intros Hone Hfresh. unfold upsert_member.
  destruct (existsb (same_project_user p u) ms) eqn:Hex.
  - apply existsb_exists in Hex as (m0 & Hin0 & Hp0).
    assert (Hf : In m0 (filter (same_project_user p u) ms)) by (apply filter_In; auto).
    eexists. exists (on_conflict_update m0 role now).
    split; [reflexivity|]. split; [|split; reflexivity].
    rewrite filter_map_stable by (intros; apply same_project_user_on_conflict).
    destruct (filter (same_project_user p u) ms) as [|a [|b t]] eqn:Ef;
      simpl in *; try lia; try contradiction.
    destruct Hf as [->|[]]. rewrite Hp0. reflexivity.
  - rewrite fresh_id_not_found by assumption.
    eexists. eexists. split; [reflexivity|].
    rewrite filter_app, (existsb_false_filter_nil _ _ Hex). simpl.
    unfold same_project_user at 1. simpl. rewrite !N.eqb_refl. simpl. auto.
Qed.

Lemma accept_invitation_ok (d : db) (u tok new_member_id : uuid) (now : timestamptz)
    (inv : project_invitation) (ms : list project_member) :
  select_invitation d tok now = Some inv ->
  email_mismatch d (Some u) inv = false ->
  upsert_member (project_members d) (inv_project_id inv) u (inv_role inv)
    (inv_invited_by inv) new_member_id now = Ok ms ->
  accept_invitation d (Some u) tok new_member_id now
  = Ok (set_project_invitations (set_project_members d ms)
          (map (fun r => if (inv_id r =? inv_id inv)%N then mark_accepted r now else r)
               (project_invitations d)),
        json_success (inv_project_id inv)).
Proof.
  intros Hsel Hmail Hup. unfold accept_invitation.
  rewrite Hsel, Hmail, Hup. reflexivity.
Qed.

(** Once the row the token names is marked, no lookup by that token finds
    anything, whatever the clock. *)
Lemma select_invitation_after_accept (d : db) (inv : project_invitation)
    (ms : list project_member) (t now' : timestamptz) :
  token_identifies d inv ->
  select_invitation
    (set_project_invitations (set_project_members d ms)
       (map (fun r => if (inv_id r =? inv_id inv)%N then mark_accepted r t else r)
            (project_invitations d)))
    (inv_token inv) now' = None.
Proof.
  intros Htok. unfold select_invitation. simpl.
  apply find_none_forall. intros x Hx.
  apply in_map_iff in Hx as (r & <- & Hr).
  destruct (N.eq_dec (inv_token r) (inv_token inv)) as [E|E].
  - rewrite (Htok r Hr E), N.eqb_refl. unfold acceptable. simpl.
    apply andb_false_r.
  - assert (Ht : inv_token (if (inv_id r =? inv_id inv)%N
                            then mark_accepted r t else r) = inv_token r)
      by (destruct (inv_id r =? inv_id inv)%N; reflexivity).
    unfold acceptable. rewrite Ht.
    apply N.eqb_neq in E. rewrite E. reflexivity.
Qed.

(** The whole successful path, for the claims that need it. *)
Lemma accept_invitation_succeeds (d : db) (u new_member_id : uuid)
    (now : timestamptz) (inv : project_invitation) :
  In inv (project_invitations d) ->
  token_identifies d inv ->
  inv_accepted_at inv = None ->
  (now < inv_expires_at inv)%Z ->
  get_current_user_email d (Some u) = Some (inv_email inv) ->
  members_unique d ->
  (forall m, In m (project_members d) -> pm_id m <> new_member_id) ->
  exists ms m,
    accept_invitation d (Some u) (inv_token inv) new_member_id now
    = Ok (set_project_invitations (set_project_members d ms)
            (map (fun r => if (inv_id r =? inv_id inv)%N then mark_accepted r now else r)
                 (project_invitations d)),
          json_success (inv_project_id inv))
    /\ filter (same_project_user (inv_project_id inv) u) ms = [m]
    /\ pm_role m = inv_role inv /\ pm_joined_at m = Some now.
Proof.
  intros Hin Htok Hacc Hexp Hmail Huniq Hfresh.
  destruct (upsert_member_one_row (project_members d) (inv_project_id inv) u
              (inv_role inv) (inv_invited_by inv) new_member_id now
              (Huniq (inv_project_id inv) u) Hfresh)
    as (ms & m & Hup & Hone & Hrole & Hjoin).
  exists ms, m. split; [|auto].
  apply accept_invitation_ok; auto.
  - apply select_invitation_found; auto.
  - apply email_mismatch_same; auto.
Qed.

Lemma single_some {A} (l : list A) (x : A) : single l = Some x -> l = [x].
Proof. destruct l as [|a [|b t]]; simpl; congruence. Qed.

(** ** Acceptance *)

(** C1. An invitation that its token names, unaccepted, unexpired and
    addressed to the caller's email is accepted by the first call: the
    call returns success, and the caller then has exactly one membership
    row for the project, with the invitation's role and [joined_at] set.
    Every later call with the same token, by anyone at any time, answers
    "Invalid or expired invitation" and leaves the database alone. *)
Theorem accept_invitation_once (d : db) (u new_member_id : uuid)
    (now : timestamptz) (inv : project_invitation) :
  In inv (project_invitations d) ->
  token_identifies d inv ->
  inv_accepted_at inv = None ->
  (now < inv_expires_at inv)%Z ->
  get_current_user_email d (Some u) = Some (inv_email inv) ->
  members_unique d ->
  (forall m, In m (project_members d) -> pm_id m <> new_member_id) ->
  exists d' m,
    accept_invitation d (Some u) (inv_token inv) new_member_id now
    = Ok (d', json_success (inv_project_id inv))
    /\ filter (same_project_user (inv_project_id inv) u) (project_members d') = [m]
    /\ pm_role m = inv_role inv
    /\ pm_joined_at m = Some now
    /\ forall uid' new_id' now',
         accept_invitation d' uid' (inv_token inv) new_id' now'
         = Ok (d', json_failure "Invalid or expired invitation").
Proof.
  intros Hin Htok Hacc Hexp Hmail Huniq Hfresh.
  destruct (accept_invitation_succeeds d u new_member_id now inv
              Hin Htok Hacc Hexp Hmail Huniq Hfresh)
    as (ms & m & Hrun & Hone & Hrole & Hjoin).
  eexists. exists m. split; [exact Hrun|].
  split; [exact Hone|]. split; [exact Hrole|]. split; [exact Hjoin|].
  intros uid' new_id' now'. unfold accept_invitation.
  rewrite select_invitation_after_accept by assumption. reflexivity.
Qed.

Lemma sample_db0_members_unique : members_unique Sample.db0.
Proof. apply members_unique_b_sound. reflexivity. Defined.

Lemma sample_db0_token : token_identifies Sample.db0 Sample.bob_invitation.
Proof. intros r [<-|[]] _. reflexivity. Defined.

Lemma accept_invitation_once_witness :
  exists d' m,
    accept_invitation Sample.db0 (Some Sample.bob) 777%N 101%N 2000%Z
    = Ok (d', json_success Sample.alpha)
    /\ filter (same_project_user Sample.alpha Sample.bob) (project_members d') = [m]
    /\ pm_role m = contributor
    /\ pm_joined_at m = Some 2000%Z
    /\ forall uid' new_id' now',
         accept_invitation d' uid' 777%N new_id' now'
         = Ok (d', json_failure "Invalid or expired invitation").
Proof.
  apply (accept_invitation_once Sample.db0 Sample.bob 101%N 2000%Z
           Sample.bob_invitation).
  - simpl; auto.
  - exact sample_db0_token.
  - reflexivity.
  - reflexivity.
  - reflexivity.
  - exact sample_db0_members_unique.
  - intros m [<-|[]]; simpl; discriminate.
Defined.

(** The email step for a caller that has an account email: when that
    email differs from the invitation's, the call answers "Email does not
    match invitation" and returns the database it was given, and the
    identity the invitation is addressed to can still accept afterwards.
    A caller without an account email is not covered here. *)
Theorem accept_invitation_email_mismatch (d : db) (u new_member_id : uuid)
    (e : string) (now : timestamptz) (inv : project_invitation) :
  In inv (project_invitations d) ->
  token_identifies d inv ->
  inv_accepted_at inv = None ->
  (now < inv_expires_at inv)%Z ->
  get_current_user_email d (Some u) = Some e ->
  e <> inv_email inv ->
  accept_invitation d (Some u) (inv_token inv) new_member_id now
  = Ok (d, json_failure "Email does not match invitation")
  /\ forall u' new_id' now',
       get_current_user_email d (Some u') = Some (inv_email inv) ->
       (now' < inv_expires_at inv)%Z ->
       members_unique d ->
       (forall m, In m (project_members d) -> pm_id m <> new_id') ->
       exists d',
         accept_invitation d (Some u') (inv_token inv) new_id' now'
         = Ok (d', json_success (inv_project_id inv)).
Proof.
  intros Hin Htok Hacc Hexp Hmail Hne. split.
  - unfold accept_invitation.
    rewrite (select_invitation_found d inv now Hin Htok Hacc Hexp).
    rewrite (email_mismatch_other d (Some u) e inv Hmail Hne). reflexivity.
  - intros u' new_id' now' Hmail' Hexp' Huniq Hfresh.
    destruct (accept_invitation_succeeds d u' new_id' now' inv
                Hin Htok Hacc Hexp' Hmail' Huniq Hfresh)
      as (ms & m & Hrun & _).
    eexists. exact Hrun.
Qed.

Lemma accept_invitation_email_mismatch_witness :
  accept_invitation Sample.db0 (Some Sample.alice) 777%N 101%N 2000%Z
  = Ok (Sample.db0, json_failure "Email does not match invitation")
  /\ forall u' new_id' now',
       get_current_user_email Sample.db0 (Some u') = Some "bob@x.com"%string ->
       (now' < 1000 + interval_7_days)%Z ->
       members_unique Sample.db0 ->
       (forall m, In m (project_members Sample.db0) -> pm_id m <> new_id') ->
       exists d',
         accept_invitation Sample.db0 (Some u') 777%N new_id' now'
         = Ok (d', json_success Sample.alpha).
Proof.
  apply (accept_invitation_email_mismatch Sample.db0 Sample.alice 101%N
           "alice@x.com"%string 2000%Z Sample.bob_invitation).
  - simpl; auto.
  - exact sample_db0_token.
  - reflexivity.
  - reflexivity.
  - reflexivity.
  - discriminate.
Defined.

(** ** Expiry *)

(** C3. An invitation with [expires_at <= now] is returned by none of the
    three lookups: it is not in the pending list of the team page, it is
    not the row the acceptance page fetches, and it is not the row
    [accept_invitation] selects. When its token names it, the acceptance
    page shows "invalid" and [accept_invitation] answers "Invalid or
    expired invitation" without touching the database. *)
Theorem expired_invitation_not_found (d : db) (uid : option uuid) (projectId : uuid)
    (now : timestamptz) (inv : project_invitation) :
  (inv_expires_at inv <= now)%Z ->
  ~ In inv (fetch_pending_invitations d uid projectId now)
  /\ fetch_invitation d uid (inv_token inv) now <> Some inv
  /\ select_invitation d (inv_token inv) now <> Some inv
  /\ (token_identifies d inv ->
      fetchInvitation d uid (inv_token inv) now = page_invalid_invitation
      /\ forall new_member_id,
           accept_invitation d uid (inv_token inv) new_member_id now
           = Ok (d, json_failure "Invalid or expired invitation")).
Proof.
  intros Hexp.
  assert (Hlt : (now <? inv_expires_at inv)%Z = false) by (apply Z.ltb_ge; exact Hexp).
  split; [|split; [|split]].
  - unfold fetch_pending_invitations. intros H. apply filter_In in H as [_ H].
    rewrite Hlt, andb_false_r in H. discriminate.
  - intros H. apply single_some in H.
    assert (Hin : In inv [inv]) by (simpl; auto).
    rewrite <- H in Hin. apply filter_In in Hin as [_ Hin].
    rewrite Hlt, andb_false_r in Hin. discriminate.
  - intros H. apply select_invitation_sound in H as (_ & _ & H & _). lia.
  - intros Htok. split.
    + unfold fetchInvitation, fetch_invitation.
      rewrite forall_false_filter_nil; [reflexivity|].
      intros x Hx. destruct (N.eq_dec (inv_token x) (inv_token inv)) as [E|E].
      * rewrite (Htok x Hx E), Hlt. apply andb_false_r.
      * apply N.eqb_neq in E. rewrite E. rewrite andb_false_r. reflexivity.
    + intros new_member_id. unfold accept_invitation, select_invitation.
      rewrite find_none_forall; [reflexivity|].
      intros x Hx. unfold acceptable.
      destruct (N.eq_dec (inv_token x) (inv_token inv)) as [E|E].
      * rewrite (Htok x Hx E), Hlt. rewrite andb_false_r. reflexivity.
      * apply N.eqb_neq in E. rewrite E. reflexivity.
Qed.

Lemma expired_invitation_not_found_witness :
  ~ In Sample.bob_invitation
      (fetch_pending_invitations Sample.db0 (Some Sample.alice) Sample.alpha
         (1000 + interval_7_days)%Z)
  /\ fetch_invitation Sample.db0 (Some Sample.alice) 777%N (1000 + interval_7_days)%Z
     <> Some Sample.bob_invitation
  /\ select_invitation Sample.db0 777%N (1000 + interval_7_days)%Z
     <> Some Sample.bob_invitation
  /\ (token_identifies Sample.db0 Sample.bob_invitation ->
      fetchInvitation Sample.db0 (Some Sample.alice) 777%N (1000 + interval_7_days)%Z
      = page_invalid_invitation
      /\ forall new_member_id,
           accept_invitation Sample.db0 (Some Sample.alice) 777%N new_member_id
             (1000 + interval_7_days)%Z
           = Ok (Sample.db0, json_failure "Invalid or expired invitation")).
Proof.
  apply (expired_invitation_not_found Sample.db0 (Some Sample.alice) Sample.alpha
           (1000 + interval_7_days)%Z Sample.bob_invitation).
  simpl. lia.
Defined.

(** ** Who may create and revoke invitations *)

Lemma invitation_deleted_by_id (d : db) (uid : option uuid) (inv : project_invitation) :
  invitation_deleted d uid (fun r => (inv_id r =? inv_id inv)%N) inv
  = owner_or_member d uid (inv_project_id inv).
Proof.
  unfold invitation_deleted, invitations_delete_policy, invitations_select_policy,
    owner_or_member.
  rewrite N.eqb_refl. simpl.
  destruct (is_project_owner d uid (inv_project_id inv)
            || is_project_member d uid (inv_project_id inv)); reflexivity.
Qed.

(** The claim of C4 fails on an accepted member who is not the owner: in
    the sample database Bob, a contributor of Alpha, creates an
    invitation for Dave and revokes the one Alice sent to Carol. *)
Lemma member_invites_and_revokes :
  is_project_member Sample.db1 (Some Sample.bob) Sample.alpha = true
  /\ is_project_owner Sample.db1 (Some Sample.bob) Sample.alpha = false
  /\ (let r := handleInviteUser (fun _ => false) Sample.db1 Sample.alpha Sample.bob
                 "dave@x.com" contributor 300%N 900%N 2000%Z in
      ir_error r = None
      /\ project_invitations (ir_db r)
         = [mark_accepted Sample.bob_invitation 6%Z; Sample.carol_invitation;
            new_invitation Sample.alpha "dave@x.com" contributor Sample.bob
              300%N 900%N 2000%Z])
  /\ project_invitations
       (handleRevokeInvitation Sample.db1 Sample.bob (inv_id Sample.carol_invitation))
     = [mark_accepted Sample.bob_invitation 6%Z].
Proof. repeat split; reflexivity. Qed.

(** C4, amended. Creating and revoking an invitation of a project pass
    the policies exactly when the actor is the owner or an accepted
    member of that project. An actor who is neither is denied: the insert
    raises a row-level-security violation and the delete removes
    nothing. *)
Theorem invitations_owner_or_member (d : db) (uid : option uuid)
    (inv : project_invitation) :
  (insert_invitation d uid inv = Err (rls_violation "project_invitations")
   <-> owner_or_member d uid (inv_project_id inv) = false)
  /\ (In inv (project_invitations d) ->
      (In inv (project_invitations
                 (delete_invitations d uid (fun r => (inv_id r =? inv_id inv)%N)))
       <-> owner_or_member d uid (inv_project_id inv) = false)).
Proof.
  split.
  - unfold insert_invitation, invitations_insert_check, owner_or_member.
    destruct (is_project_owner d uid (inv_project_id inv)
              || is_project_member d uid (inv_project_id inv)); simpl.
    + split; [|discriminate].
      destruct (existsb _ (project_invitations d)); [discriminate|].
      destruct (existsb _ (project_invitations d)); discriminate.
    + split; reflexivity.
  - intros Hin. unfold delete_invitations. simpl.
    rewrite filter_In, invitation_deleted_by_id.
    destruct (owner_or_member d uid (inv_project_id inv)); simpl; intuition congruence.
Qed.

Lemma invitations_owner_or_member_witness :
  (insert_invitation Sample.db1 (Some Sample.carol) Sample.carol_invitation
   = Err (rls_violation "project_invitations")
   <-> owner_or_member Sample.db1 (Some Sample.carol) Sample.alpha = false)
  /\ (In Sample.carol_invitation (project_invitations Sample.db1) ->
      (In Sample.carol_invitation
         (project_invitations
            (delete_invitations Sample.db1 (Some Sample.carol)
               (fun r => (inv_id r =? 201)%N)))
       <-> owner_or_member Sample.db1 (Some Sample.carol) Sample.alpha = false)).
Proof.
  exact (invitations_owner_or_member Sample.db1 (Some Sample.carol)
           Sample.carol_invitation).
Defined.

(** ** Removing a member *)

Lemma is_project_owner_intro (d : db) (p : project) :
  In p (projects d) ->
  is_project_owner d (Some (proj_owner_id p)) (proj_id p) = true.
Proof.
  intros Hin. unfold is_project_owner. apply existsb_exists.
  exists p. rewrite !N.eqb_refl. auto.
Qed.

Lemma member_deleted_by_owner (d : db) (p : project) (member : project_member) :
  In p (projects d) ->
  pm_project_id member = proj_id p ->
  member_deleted d (Some (proj_owner_id p)) (fun m => (pm_id m =? pm_id member)%N) member
  = true.
Proof.
  intros Hp Hproj.
  unfold member_deleted, members_delete_policy, members_select_policy.
  rewrite Hproj, (is_project_owner_intro d p Hp), N.eqb_refl. reflexivity.
Qed.

(** The claim of C5 fails on the handler: called by the owner with the id
    of the owner's own membership, [handleRemoveMember] deletes the row. *)
Lemma owner_removes_own_membership :
  is_project_owner Sample.db0 (Some Sample.alice) Sample.alpha = true
  /\ In Sample.alice_membership (project_members Sample.db0)
  /\ pm_user_id Sample.alice_membership = Sample.alice
  /\ project_members
       (handleRemoveMember Sample.db0 Sample.alice (pm_id Sample.alice_membership))
     = [].
Proof. repeat split; simpl; auto. Qed.

(** C5, amended. For the owner of a project looking at a member listed
    on its team page: the row of the owner's own membership has no
    "Remove" entry (the menu is rendered only for other users' rows), so
    the interface never calls the handler on it. For any other member the
    entry calls [handleRemoveMember], which deletes the row and leaves
    the other rows; afterwards [is_project_member] is false for that
    user. *)
Theorem remove_member_entry_spec (d : db) (p : project) (member : project_member) :
  let userId := proj_owner_id p in
  let isOwner := page_isOwner p userId in
  In p (projects d) ->
  In member (fetch_members d (Some userId) (proj_id p)) ->
  (pm_user_id member = userId ->
   remove_member_entry d isOwner userId member = None)
  /\ (pm_user_id member <> userId ->
      members_unique d ->
      exists d',
        remove_member_entry d isOwner userId member = Some d'
        /\ ~ In member (project_members d')
        /\ is_project_member d' (Some (pm_user_id member)) (proj_id p) = false
        /\ forall m, In m (project_members d) -> pm_id m <> pm_id member ->
                     In m (project_members d')).
Proof.
  cbv zeta. intros Hp Hlisted.
  apply filter_In in Hlisted as [Hm Hshown].
  assert (Hproj : pm_project_id member = proj_id p).
  { apply andb_true_iff in Hshown as [Hshown _].
    apply andb_true_iff in Hshown as [_ Hshown]. apply N.eqb_eq. exact Hshown. }
  unfold remove_member_entry, member_menu_shown, page_isOwner.
  rewrite N.eqb_refl. simpl. split.
  - intros ->. rewrite N.eqb_refl. reflexivity.
  - intros Hne Huniq. apply N.eqb_neq in Hne. rewrite Hne. simpl.
    eexists. split; [reflexivity|].
    unfold handleRemoveMember, delete_members. simpl. split; [|split].
    + rewrite filter_In, (member_deleted_by_owner d p member Hp Hproj).
      simpl. intros [_ H]. discriminate.
    + destruct (existsb _ _) eqn:E; [|reflexivity].
      apply existsb_exists in E as (m & Hin & Hpred).
      apply filter_In in Hin as [Hin Hkept].
      apply andb_true_iff in Hpred as [Hpair _].
      assert (m = member).
      { apply (at_most_one_eq (same_project_user (proj_id p) (pm_user_id member))
                 (project_members d)); auto.
        unfold same_project_user. rewrite Hproj, !N.eqb_refl. reflexivity. }
      subst m. rewrite (member_deleted_by_owner d p member Hp Hproj) in Hkept.
      discriminate.
    + intros m Hin Hid. apply filter_In. split; [exact Hin|].
      unfold member_deleted. apply N.eqb_neq in Hid. rewrite Hid. reflexivity.
Qed.

Lemma sample_db1_members_unique : members_unique Sample.db1.
Proof. apply members_unique_b_sound. reflexivity. Defined.

Lemma remove_member_entry_spec_witness :
  (pm_user_id Sample.bob_membership = Sample.alice ->
   remove_member_entry Sample.db1 (page_isOwner Sample.alpha_project Sample.alice)
     Sample.alice Sample.bob_membership = None)
  /\ (pm_user_id Sample.bob_membership <> Sample.alice ->
      members_unique Sample.db1 ->
      exists d',
        remove_member_entry Sample.db1 (page_isOwner Sample.alpha_project Sample.alice)
          Sample.alice Sample.bob_membership = Some d'
        /\ ~ In Sample.bob_membership (project_members d')
        /\ is_project_member d' (Some Sample.bob) Sample.alpha = false
        /\ forall m, In m (project_members Sample.db1) ->
                     pm_id m <> pm_id Sample.bob_membership ->
                     In m (project_members d')).
Proof.
  apply (remove_member_entry_spec Sample.db1 Sample.alpha_project Sample.bob_membership).
  - simpl; auto.
  - simpl; auto.
Defined.

(** ** Project creation *)

Lemma insert_column_tables (d d' : db) (c : column) :
  insert_column d c = Ok d' ->
  projects d' = projects d /\ project_members d' = project_members d.
Proof.
  unfold insert_column. destruct (existsb _ _); [discriminate|].
  intros H. injection H as <-. auto.
Qed.

Lemma create_default_columns_tables (d d' : db) (NEW : project) (c0 c1 c2 : uuid)
    (now : timestamptz) :
  create_default_columns d NEW c0 c1 c2 now = Ok d' ->
  projects d' = projects d /\ project_members d' = project_members d.
Proof.
  unfold create_default_columns.
  destruct (insert_column d _) as [d0|] eqn:E0; [|discriminate].
  destruct (insert_column d0 _) as [d1|] eqn:E1; [|discriminate].
  intros E2.
  apply insert_column_tables in E0 as [P0 M0].
  apply insert_column_tables in E1 as [P1 M1].
  apply insert_column_tables in E2 as [P2 M2].
  split; congruence.
Qed.

(** The insert goes through when the caller names itself as owner and is
    a known user, the drawn identifiers are new, and no membership row
    for the new project is lying around. *)
Lemma insert_project_succeeds (d : db) (name : string) (description : option string)
    (owner_id new_id new_member_id c0 c1 c2 : uuid) (now : timestamptz) :
  (forall p, In p (projects d) -> proj_id p <> new_id) ->
  (exists a, In a (auth_users d) /\ au_id a = owner_id) ->
  (forall m, In m (project_members d) ->
             pm_id m <> new_member_id /\ pm_project_id m <> new_id) ->
  (forall c, In c (columns d) -> col_id c <> c0 /\ col_id c <> c1 /\ col_id c <> c2) ->
  c0 <> c1 -> c0 <> c2 -> c1 <> c2 ->
  exists d',
    insert_project d (Some owner_id) name description owner_id
      new_id new_member_id c0 c1 c2 now = Ok d'.
Proof.
  intros Hproj (a & Ha & Haid) Hmem Hcol H01 H02 H12.
  assert (E1 : existsb (fun p => (proj_id p =? new_id)%N) (projects d) = false).
  { apply existsb_false_forall. intros p Hp. apply N.eqb_neq. auto. }
  assert (E2 : existsb (fun a => (au_id a =? owner_id)%N) (auth_users d) = true).
  { apply existsb_exists. exists a. split; [exact Ha|]. apply N.eqb_eq. exact Haid. }
  assert (E3 : existsb (same_project_user new_id owner_id) (project_members d) = false).
  { apply existsb_false_forall. intros m Hm. unfold same_project_user.
    destruct (Hmem m Hm) as [_ Hne]. apply N.eqb_neq in Hne. rewrite Hne. reflexivity. }
  assert (E4 : existsb (fun m => (pm_id m =? new_member_id)%N) (project_members d) = false).
  { apply fresh_id_not_found. intros m Hm. apply (Hmem m Hm). }
  assert (F : forall c', (forall c, In c (columns d) -> col_id c <> c') ->
                         existsb (fun c => (col_id c =? c')%N) (columns d) = false).
  { intros c' H. apply existsb_false_forall. intros c Hc. apply N.eqb_neq. auto. }
  assert (F0 := F c0 (fun c Hc => proj1 (Hcol c Hc))).
  assert (F1 := F c1 (fun c Hc => proj1 (proj2 (Hcol c Hc)))).
  assert (F2 := F c2 (fun c Hc => proj2 (proj2 (Hcol c Hc)))).
  apply N.eqb_neq in H01, H02, H12.
  unfold insert_project, projects_insert_check. cbn [proj_owner_id].
  rewrite N.eqb_refl, E1, E2. cbn [negb].
  unfold add_owner_as_member. cbn [project_members set_projects proj_id proj_owner_id].
  rewrite E4, E3.
  unfold create_default_columns, insert_column.
  cbn [columns set_project_members set_projects set_columns col_id].
  rewrite F0. cbn [columns set_columns].
  rewrite existsb_app, F1. cbn [existsb orb col_id]. rewrite H01. cbn [orb].
  cbn [columns set_columns].
  rewrite !existsb_app, F2. cbn [existsb orb col_id]. rewrite H02, H12. cbn [orb].
  eexists. reflexivity.
Qed.

(** C6. When the project insert completes, the owner passes
    [is_project_owner] on the new project, and the membership table holds
    exactly one row for (project, owner): role [owner], [joined_at] set
    to the time of creation; so the owner passes [is_project_member] as
    well. *)
Theorem insert_project_enrolls_owner (d d' : db) (uid : option uuid) (name : string)
    (description : option string) (owner_id new_id new_member_id c0 c1 c2 : uuid)
    (now : timestamptz) :
  insert_project d uid name description owner_id new_id new_member_id c0 c1 c2 now
  = Ok d' ->
  is_project_owner d' (Some owner_id) new_id = true
  /\ (exists m,
        filter (same_project_user new_id owner_id) (project_members d') = [m]
        /\ pm_role m = owner
        /\ pm_joined_at m = Some now)
  /\ is_project_member d' (Some owner_id) new_id = true.
Proof.
  unfold insert_project.
  destruct (negb _); [discriminate|].
  destruct (existsb _ (projects d)); [discriminate|].
  destruct (negb _); [discriminate|].
  destruct (add_owner_as_member _ _ _ _) as [d1|] eqn:Eadd; [|discriminate].
  intros Hcols. apply create_default_columns_tables in Hcols as [Hp Hm].
  unfold add_owner_as_member in Eadd. simpl in Eadd.
  destruct (existsb _ (project_members d)); [discriminate|].
  destruct (existsb (same_project_user new_id owner_id) (project_members d)) eqn:Epair;
    [discriminate|].
  injection Eadd as <-. simpl in Hp, Hm.
  assert (Hrow : filter (same_project_user new_id owner_id) (project_members d')
                 = [ {| pm_id := new_member_id; pm_project_id := new_id;
                        pm_user_id := owner_id; pm_role := owner;
                        pm_invited_by := owner_id; pm_invited_at := now;
                        pm_joined_at := Some now; pm_created_at := now;
                        pm_updated_at := now |} ]).
  { rewrite Hm, filter_app, (existsb_false_filter_nil _ _ Epair). simpl.
    unfold same_project_user. simpl. rewrite !N.eqb_refl. reflexivity. }
  split; [|split].
  - unfold is_project_owner. rewrite Hp, existsb_app. simpl.
    rewrite !N.eqb_refl. simpl. apply orb_true_r.
  - eexists. split; [exact Hrow|]. split; reflexivity.
  - unfold is_project_member. rewrite Hm, existsb_app. simpl.
    rewrite !N.eqb_refl. simpl. apply orb_true_r.
Qed.

Lemma insert_project_enrolls_owner_witness :
  let d' :=
    or_unchanged empty_db
      (insert_project (set_projects Sample.db0 []) (Some Sample.bob) "Beta" None
         Sample.bob 11%N 102%N 20%N 21%N 22%N 3000%Z) in
  is_project_owner d' (Some Sample.bob) 11%N = true
  /\ (exists m,
        filter (same_project_user 11%N Sample.bob) (project_members d') = [m]
        /\ pm_role m = owner
        /\ pm_joined_at m = Some 3000%Z)
  /\ is_project_member d' (Some Sample.bob) 11%N = true.
Proof.
  apply (insert_project_enrolls_owner (set_projects Sample.db0 []) _ (Some Sample.bob)
           "Beta" None Sample.bob 11%N 102%N 20%N 21%N 22%N 3000%Z).
  reflexivity.
Defined.

(** ** At most one pending invitation per (project, email) *)

Lemma pending_for_new_invitation (projectId : uuid) (email : string)
    (role : member_role) (invited_by new_id new_token : uuid) (now : timestamptz) :
  pending_for projectId email
    (new_invitation projectId email role invited_by new_id new_token now) = true.
Proof.
  unfold pending_for. simpl. rewrite N.eqb_refl, String.eqb_refl. reflexivity.
Qed.

Lemma pending_for_same_pair (p : uuid) (e : string) (r : project_invitation) :
  pending_for p e r = true -> same_project_email p e r = true.
Proof.
  unfold pending_for, same_project_email. intros H.
  apply andb_true_iff in H as [H _]. exact H.
Qed.

Lemma pending_for_spec (p : uuid) (e : string) (r : project_invitation) :
  pending_for p e r = true <->
  inv_project_id r = p /\ inv_email r = e /\ inv_accepted_at r = None.
Proof.
  unfold pending_for. rewrite !andb_true_iff, N.eqb_eq, String.eqb_eq.
  destruct (inv_accepted_at r); simpl; intuition congruence.
Qed.

Lemma delete_invitations_keeps (d : db) (uid : option uuid)
    (where_ : project_invitation -> bool) :
  at_most_one_pending d -> at_most_one_pending (delete_invitations d uid where_).
Proof.
  intros H p e. unfold delete_invitations. simpl.
  etransitivity; [apply length_filter_sub | apply H].
Qed.

Lemma insert_invitation_keeps (d d' : db) (uid : option uuid) (r : project_invitation) :
  at_most_one_pending d ->
  insert_invitation d uid r = Ok d' ->
  at_most_one_pending d'.
Proof.
  intros H. unfold insert_invitation.
  destruct (negb _); [discriminate|].
  destruct (existsb (fun r' => (inv_id r' =? inv_id r)%N) _); [discriminate|].
  destruct (existsb (same_project_email _ _) _) eqn:E; [discriminate|].
  intros Hok. injection Hok as <-. intros p e. simpl.
  rewrite filter_app, length_app. simpl.
  destruct (pending_for p e r) eqn:Hr; simpl; [|specialize (H p e); lia].
  apply pending_for_spec in Hr as (<- & <- & _).
  rewrite forall_false_filter_nil; [simpl; lia|].
  intros x Hx. destruct (pending_for (inv_project_id r) (inv_email r) x) eqn:Hpx;
    [|reflexivity].
  apply pending_for_same_pair in Hpx.
  assert (existsb (same_project_email (inv_project_id r) (inv_email r))
            (project_invitations d) = true) by (apply existsb_exists; eauto).
  congruence.
Qed.

Lemma accept_invitation_marks_only (d d' : db) (uid : option uuid) (tok id : uuid)
    (now : timestamptz) (j : json) :
  accept_invitation d uid tok id now = Ok (d', j) ->
  exists f,
    project_invitations d' = map f (project_invitations d)
    /\ forall r, f r = r \/ f r = mark_accepted r now.
Proof.
  unfold accept_invitation.
  destruct (select_invitation d tok now) as [inv|].
  2: { intros H. injection H as <- _. exists (fun r => r).
       rewrite map_id. auto. }
  destruct (email_mismatch d uid inv).
  { intros H. injection H as <- _. exists (fun r => r). rewrite map_id. auto. }
  destruct uid as [u|]; [|discriminate].
  destruct (upsert_member _ _ _ _ _ _ _) as [ms|]; [|discriminate].
  intros H. injection H as <- _. eexists. split; [reflexivity|].
  intros r. simpl. destruct (inv_id r =? inv_id inv)%N; auto.
Qed.

Lemma accept_invitation_keeps (d d' : db) (uid : option uuid) (tok id : uuid)
    (now : timestamptz) (j : json) :
  at_most_one_pending d ->
  accept_invitation d uid tok id now = Ok (d', j) ->
  at_most_one_pending d'.
Proof.
  intros H Hacc p e.
  apply accept_invitation_marks_only in Hacc as (f & -> & Hf).
  etransitivity; [apply length_filter_map | apply H].
  intros x. destruct (Hf x) as [->| ->]; [auto|].
  unfold pending_for. simpl. rewrite andb_false_r. discriminate.
Qed.

Lemma insert_project_invitations (d d' : db) (uid : option uuid) (name : string)
    (description : option string) (owner_id new_id new_member_id c0 c1 c2 : uuid)
    (now : timestamptz) :
  insert_project d uid name description owner_id new_id new_member_id c0 c1 c2 now
  = Ok d' ->
  project_invitations d' = project_invitations d.
Proof.
  unfold insert_project, add_owner_as_member, create_default_columns, insert_column.
  repeat match goal with
         | |- context [if ?b then _ else _] => destruct b; simpl; try discriminate
         end.
  intros H. injection H as <-. reflexivity.
Qed.

Lemma exec_keeps (d : db) (s : statement) :
  at_most_one_pending d -> at_most_one_pending (exec d s).
Proof.
  intros H. destruct s; simpl.
  - apply delete_invitations_keeps, H.
  - destruct (insert_invitation _ _ _) eqn:E; simpl; [|exact H].
    eapply insert_invitation_keeps; eauto.
  - apply delete_invitations_keeps, H.
  - destruct (accept_invitation _ _ _ _ _) as [[d' j]|] eqn:E; [|exact H].
    eapply accept_invitation_keeps; eauto.
  - exact H.
  - exact H.
  - destruct (insert_project _ _ _ _ _ _ _ _ _ _ _) eqn:E; simpl; [|exact H].
    intros p e. rewrite (insert_project_invitations _ _ _ _ _ _ _ _ _ _ _ _ E). apply H.
Qed.

Lemma run_keeps (l : list statement) (d : db) :
  at_most_one_pending d -> at_most_one_pending (run d l).
Proof.
  revert d. induction l as [|s l IH]; intros d H; simpl; [exact H|].
  apply IH, exec_keeps, H.
Qed.

(** The policies read [projects] and [project_members] only. *)
Lemma owner_or_member_delete_invitations (d : db) (uid uid' : option uuid)
    (where_ : project_invitation -> bool) (projectId : uuid) :
  owner_or_member (delete_invitations d uid where_) uid' projectId
  = owner_or_member d uid' projectId.
Proof. destruct uid'; reflexivity. Qed.

(** An actor the policies let through deletes every pending invitation
    of the pair. *)
Lemma supersession_delete (d : db) (userId projectId : uuid) (email : string) :
  owner_or_member d (Some userId) projectId = true ->
  filter (pending_for projectId email)
    (project_invitations
       (delete_invitations d (Some userId) (pending_for projectId email))) = [].
Proof.
  intros Hauth. unfold delete_invitations. simpl.
  apply forall_false_filter_nil. intros x Hx.
  apply filter_In in Hx as [_ Hkept].
  destruct (pending_for projectId email x) eqn:Hp; [|reflexivity].
  assert (Hproj : inv_project_id x = projectId) by (apply pending_for_spec in Hp; tauto).
  unfold invitation_deleted, invitations_delete_policy, invitations_select_policy in Hkept.
  unfold owner_or_member in Hauth.
  rewrite Hp, Hproj, Hauth in Hkept. discriminate.
Qed.

Lemma at_most_one_pending_b_sound (d : db) :
  at_most_one_pending_b d = true -> at_most_one_pending d.
Proof.
  unfold at_most_one_pending_b, at_most_one_pending. intros H p e.
  destruct (filter (pending_for p e) (project_invitations d)) as [|a t] eqn:E;
    [simpl; lia|].
  assert (Ha : In a (filter (pending_for p e) (project_invitations d)))
    by (rewrite E; simpl; auto).
  apply filter_In in Ha as [Hin Hpair].
  apply pending_for_spec in Hpair as (<- & <- & _).
  rewrite forallb_forall in H. specialize (H a Hin).
  apply Nat.leb_le in H. rewrite E in H. exact H.
Defined.

Lemma insert_invitation_ok (d d' : db) (uid : option uuid) (r : project_invitation) :
  insert_invitation d uid r = Ok d' ->
  owner_or_member d uid (inv_project_id r) = true
  /\ d' = set_project_invitations d (project_invitations d ++ [r]).
Proof.
  unfold insert_invitation, invitations_insert_check, owner_or_member.
  destruct (is_project_owner d uid (inv_project_id r)
            || is_project_member d uid (inv_project_id r)); simpl; [|discriminate].
  destruct (existsb _ (project_invitations d)); [discriminate|].
  destruct (existsb _ (project_invitations d)); [discriminate|].
  intros H. injection H as <-. auto.
Qed.

(** What the supersession delete of an owner or accepted member leaves:
    the rows that are not pending invitations of the pair. *)
Lemma supersession_delete_rows (d : db) (userId projectId : uuid) (email : string)
    (x : project_invitation) :
  owner_or_member d (Some userId) projectId = true ->
  In x (project_invitations
          (delete_invitations d (Some userId) (pending_for projectId email)))
  <-> In x (project_invitations d) /\ pending_for projectId email x = false.
Proof.
  intros Hauth. unfold delete_invitations.
  cbn [project_invitations set_project_invitations]. rewrite filter_In.
  unfold invitation_deleted, invitations_delete_policy, invitations_select_policy.
  destruct (pending_for projectId email x) eqn:Hp; cbn [andb negb].
  - assert (Hproj : inv_project_id x = projectId) by (apply pending_for_spec in Hp; tauto).
    unfold owner_or_member in Hauth. rewrite Hproj, Hauth. cbn [andb orb negb].
    split; intros [_ H]; discriminate.
  - tauto.
Qed.

(** C7. At most one invitation of a (project, email) pair is unaccepted,
    and every statement a client can issue keeps it so, in whatever order
    the statements of different clients arrive. [handleInviteUser] is the
    supersession delete followed by the insert. For an owner or accepted
    member the delete removes exactly the pending invitations of the
    pair, and this is what lets the insert through: when the pair has no
    accepted invitation and the drawn id is new, the handler succeeds
    although a pending invitation of the pair was there, and the new row
    is the only pending one afterwards. *)
Theorem at_most_one_pending_invariant (d : db) :
  at_most_one_pending d ->
  (forall l, at_most_one_pending (run d l))
  /\ forall send_invitation projectId userId inviteEmail inviteRole new_id new_token now,
       truthy (trim inviteEmail) = true ->
       let email := toLowerCase (trim inviteEmail) in
       let delete := DeletePendingInvitations userId projectId email in
       let insert := InsertInvitation userId projectId email inviteRole
                       new_id new_token now in
       let r := handleInviteUser send_invitation d projectId userId inviteEmail
                  inviteRole new_id new_token now in
       ir_db r = run d [delete; insert]
       /\ (ir_error r = None ->
           filter (pending_for projectId email) (project_invitations (exec d delete)) = []
           /\ filter (pending_for projectId email) (project_invitations (ir_db r))
              = [new_invitation projectId email inviteRole userId new_id new_token now])
       /\ (owner_or_member d (Some userId) projectId = true ->
           (forall x,
              In x (project_invitations (exec d delete))
              <-> In x (project_invitations d) /\ pending_for projectId email x = false)
           /\ ((forall x, In x (project_invitations d) -> inv_id x <> new_id) ->
               (forall x, In x (project_invitations d) ->
                          same_project_email projectId email x = true ->
                          inv_accepted_at x = None) ->
               ir_error r = None)).
Proof.
  intros Hinv. split; [intros l; apply run_keeps, Hinv|].
  intros send projectId userId inviteEmail inviteRole new_id new_token now Hne.
  cbv zeta. unfold handleInviteUser, run. simpl fold_left. rewrite Hne.
  cbn [negb exec].
  set (email := toLowerCase (trim inviteEmail)).
  set (d1 := delete_invitations d (Some userId) (pending_for projectId email)).
  split; [|split].
  - destruct (insert_invitation d1 _ _); reflexivity.
  - destruct (insert_invitation d1 _ _) as [d2|e] eqn:E; cbn [ir_db ir_error];
      [|discriminate].
    intros _. apply insert_invitation_ok in E as [Hauth ->].
    cbn [inv_project_id new_invitation] in Hauth.
    unfold d1 in Hauth. rewrite owner_or_member_delete_invitations in Hauth.
    pose proof (supersession_delete d userId projectId email Hauth) as Hdel.
    split; [exact Hdel|].
    cbn [project_invitations set_project_invitations].
    fold d1 in Hdel. rewrite filter_app, Hdel. simpl.
    rewrite pending_for_new_invitation. reflexivity.
  - intros Hauth. split.
    + intros x. apply supersession_delete_rows. exact Hauth.
    + intros Hfresh Hpending.
      assert (Hid : existsb (fun r' => (inv_id r' =? new_id)%N) (project_invitations d1)
                    = false).
      { apply existsb_false_forall. intros x Hx.
        apply (supersession_delete_rows d userId projectId email x Hauth) in Hx as [Hx _].
        apply N.eqb_neq. exact (Hfresh x Hx). }
      assert (Hpair : existsb (same_project_email projectId email)
                        (project_invitations d1) = false).
      { apply existsb_false_forall. intros x Hx.
        apply (supersession_delete_rows d userId projectId email x Hauth) in Hx
          as [Hx Hnot].
        destruct (same_project_email projectId email x) eqn:Es; [|reflexivity].
        unfold pending_for in Hnot. unfold same_project_email in Es.
        rewrite Es, (Hpending x Hx) in Hnot; [discriminate|].
        unfold same_project_email. exact Es. }
      unfold insert_invitation, invitations_insert_check.
      cbn [inv_project_id inv_email inv_id new_invitation].
      fold (owner_or_member d1 (Some userId) projectId).
      unfold d1 at 1. rewrite owner_or_member_delete_invitations, Hauth.
      cbn [negb]. rewrite Hid, Hpair. reflexivity.
Qed.

Lemma at_most_one_pending_invariant_witness :
  let delete := DeletePendingInvitations Sample.alice Sample.alpha "bob@x.com" in
  let r := handleInviteUser (fun _ => false) Sample.db0 Sample.alpha Sample.alice
             "  Bob@X.com " owner 202%N 779%N 5000%Z in
  (forall l, at_most_one_pending (run Sample.db0 l))
  /\ In Sample.bob_invitation (project_invitations Sample.db0)
  /\ pending_for Sample.alpha "bob@x.com" Sample.bob_invitation = true
  /\ ~ In Sample.bob_invitation (project_invitations (exec Sample.db0 delete))
  /\ ir_error r = None
  /\ filter (pending_for Sample.alpha "bob@x.com") (project_invitations (ir_db r))
     = [new_invitation Sample.alpha "bob@x.com" owner Sample.alice 202%N 779%N 5000%Z].
Proof.
  cbv zeta.
  destruct (at_most_one_pending_invariant Sample.db0
              (at_most_one_pending_b_sound Sample.db0 eq_refl)) as [Hrun Hinvite].
  destruct (Hinvite (fun _ => false) Sample.alpha Sample.alice "  Bob@X.com "%string
              owner 202%N 779%N 5000%Z eq_refl) as (_ & Hok & Hauth).
  cbv zeta in Hok, Hauth.
  destruct (Hauth eq_refl) as [Hrows Hgoes].
  assert (Herr : ir_error (handleInviteUser (fun _ => false) Sample.db0 Sample.alpha
                             Sample.alice "  Bob@X.com " owner 202%N 779%N 5000%Z)
                 = None).
  { apply Hgoes.
    - intros x [<-|[]]; discriminate.
    - intros x [<-|[]] _; reflexivity. }
  split; [exact Hrun|]. split; [simpl; auto|]. split; [reflexivity|].
  split; [|split; [exact Herr|exact (proj2 (Hok Herr))]].
  intros Hin. apply (proj1 (Hrows Sample.bob_invitation)) in Hin as [_ Hnot].
  discriminate Hnot.
Defined.

(** The scenario of the spec: Alice invites Bob a second time, now as an
    owner; the first invitation is superseded. *)
Example reinvite_supersedes :
  project_invitations
    (ir_db (handleInviteUser (fun _ => false) Sample.db0 Sample.alpha Sample.alice
              "  Bob@X.com " owner 202%N 779%N 5000%Z))
  = [new_invitation Sample.alpha "bob@x.com" owner Sample.alice 202%N 779%N 5000%Z].
Proof. reflexivity. Qed.

(** ** Notification failure *)

Section Notification.

Variable send_invitation : InvitationRequest -> bool.
Variables (d : db) (projectId userId : uuid) (inviteEmail : string)
          (inviteRole : member_role) (new_id new_token : uuid) (now : timestamptz).


End Notification.


(** ** Letter case of emails *)

Lemma ascii_toLowerCase_idem (c : ascii) :
  ascii_toLowerCase (ascii_toLowerCase c) = ascii_toLowerCase c.
Proof. destruct c as [[] [] [] [] [] [] [] []]; reflexivity. Qed.

Lemma toLowerCase_idem (s : string) : toLowerCase (toLowerCase s) = toLowerCase s.
Proof.
  induction s as [|c s IH]; simpl; [reflexivity|].
  rewrite ascii_toLowerCase_idem, IH. reflexivity.
Qed.

(** The claim of C9 fails on the comparison: Carol's account email is
    "Carol@x.com", her invitation is stored as "carol@x.com", the two
    differ in letter case only, and [accept_invitation] answers "Email
    does not match invitation". *)
Lemma case_differing_email_rejected :
  get_current_user_email Sample.db1 (Some Sample.carol) = Some "Carol@x.com"%string
  /\ inv_email Sample.carol_invitation = "carol@x.com"%string
  /\ toLowerCase "Carol@x.com" = toLowerCase "carol@x.com"
  /\ select_invitation Sample.db1 778%N 2000%Z = Some Sample.carol_invitation
  /\ email_mismatch Sample.db1 (Some Sample.carol) Sample.carol_invitation = true
  /\ accept_invitation Sample.db1 (Some Sample.carol) 778%N 102%N 2000%Z
     = Ok (Sample.db1, json_failure "Email does not match invitation").
Proof. repeat split; reflexivity. Qed.

(** C9, amended. [handleInviteUser] stores the typed address trimmed and
    lower-cased. [accept_invitation] compares the caller's account email
    with the stored one as it is, without changing case: a caller with an
    account email passes the email step exactly when that email equals
    the stored, lower-cased address. *)
Theorem invitation_email_lowercased (send_invitation : InvitationRequest -> bool)
    (d : db) (projectId userId : uuid) (inviteEmail : string)
    (inviteRole : member_role) (new_id new_token : uuid) (now : timestamptz) :
  let r := handleInviteUser send_invitation d projectId userId inviteEmail inviteRole
             new_id new_token now in
  truthy (trim inviteEmail) = true ->
  ir_error r = None ->
  exists row,
    In row (project_invitations (ir_db r))
    /\ inv_token row = new_token
    /\ inv_email row = toLowerCase (trim inviteEmail)
    /\ toLowerCase (inv_email row) = inv_email row
    /\ forall d' uid e,
         get_current_user_email d' uid = Some e ->
         (email_mismatch d' uid row = false <-> e = inv_email row).
Proof.
  cbv zeta. unfold handleInviteUser. intros Hne. rewrite Hne. cbn [negb].
  destruct (insert_invitation _ _ _) as [d2|e] eqn:E;
    cbn [ir_db ir_error]; [|discriminate].
  intros _. apply insert_invitation_ok in E as [_ ->].
  eexists. split; [|split; [|split; [|split]]].
  - cbn [project_invitations set_project_invitations].
    apply in_or_app. right. simpl. left. reflexivity.
  - reflexivity.
  - reflexivity.
  - simpl. apply toLowerCase_idem.
  - intros d' uid e He. unfold email_mismatch. rewrite He. simpl.
    destruct (String.eqb_spec e (toLowerCase (trim inviteEmail))); simpl;
      split; congruence.
Qed.

Lemma invitation_email_lowercased_witness :
  let r := handleInviteUser (fun _ => false) Sample.db0 Sample.alpha Sample.alice
             " Dave@X.com" contributor 300%N 900%N 2000%Z in
  exists row,
    In row (project_invitations (ir_db r))
    /\ inv_token row = 900%N
    /\ inv_email row = toLowerCase (trim " Dave@X.com")
    /\ toLowerCase (inv_email row) = inv_email row
    /\ forall d' uid e,
         get_current_user_email d' uid = Some e ->
         (email_mismatch d' uid row = false <-> e = inv_email row).
Proof.
  apply (invitation_email_lowercased (fun _ => false) Sample.db0 Sample.alpha
           Sample.alice " Dave@X.com" contributor 300%N 900%N 2000%Z).
  - reflexivity.
  - reflexivity.
Defined.

(** ** Inviting again after acceptance *)

(** C10. When the pair already has an accepted invitation, a new
    [handleInviteUser] for it by an owner or member fails in the insert
    with a unique violation (the one of [UNIQUE(project_id, email)] when
    the drawn id is new): the supersession delete skips the accepted row,
    which then blocks the insert. The handler shows the "Error" toast,
    sends no email, and no pending invitation of the pair exists
    afterwards. *)
Theorem reinvite_after_acceptance_fails (send_invitation : InvitationRequest -> bool)
    (d : db) (projectId userId : uuid) (inviteEmail : string)
    (inviteRole : member_role) (new_id new_token : uuid) (now t : timestamptz)
    (acc : project_invitation) :
  let email := toLowerCase (trim inviteEmail) in
  let r := handleInviteUser send_invitation d projectId userId inviteEmail inviteRole
             new_id new_token now in
  truthy (trim inviteEmail) = true ->
  In acc (project_invitations d) ->
  inv_project_id acc = projectId ->
  inv_email acc = email ->
  inv_accepted_at acc = Some t ->
  owner_or_member d (Some userId) projectId = true ->
  (exists c, ir_error r = Some (unique_violation c))
  /\ ((forall x, In x (project_invitations d) -> inv_id x <> new_id) ->
      ir_error r = Some (unique_violation "project_invitations_project_id_email_key"))
  /\ ir_toast r = Some toast_invite_error
  /\ ir_request r = None
  /\ In acc (project_invitations (ir_db r))
  /\ filter (pending_for projectId email) (project_invitations (ir_db r)) = [].
Proof.
  cbv zeta. intros Hne Hin Hproj Hmail Hacc Hauth.
  unfold handleInviteUser. rewrite Hne. cbn [negb].
  set (email := toLowerCase (trim inviteEmail)) in *.
  set (d1 := delete_invitations d (Some userId) (pending_for projectId email)).
  assert (Hkept : In acc (project_invitations d1)).
  { unfold d1, delete_invitations. simpl. apply filter_In. split; [exact Hin|].
    unfold invitation_deleted, pending_for. rewrite Hacc. simpl.
    rewrite andb_false_r. reflexivity. }
  assert (Hpair : existsb (same_project_email projectId email) (project_invitations d1)
                  = true).
  { apply existsb_exists. exists acc. split; [exact Hkept|].
    unfold same_project_email. rewrite Hproj, Hmail, N.eqb_refl, String.eqb_refl.
    reflexivity. }
  assert (Hauth1 : owner_or_member d1 (Some userId) projectId = true)
    by (unfold d1; rewrite owner_or_member_delete_invitations; exact Hauth).
  assert (Hnone : filter (pending_for projectId email) (project_invitations d1) = [])
    by (apply supersession_delete; exact Hauth).
  unfold insert_invitation, invitations_insert_check. cbn [inv_project_id inv_email inv_id new_invitation].
  unfold owner_or_member in Hauth1. rewrite Hauth1. cbn [negb].
  destruct (existsb (fun r' => (inv_id r' =? new_id)%N) (project_invitations d1)) eqn:Eid.
  - cbn [ir_error ir_toast ir_request ir_db].
    split; [eexists; reflexivity|]. split; [|auto].
    intros Hfresh. exfalso.
    apply existsb_exists in Eid as (x & Hx & Hid). apply N.eqb_eq in Hid.
    apply filter_In in Hx as [Hx _]. exact (Hfresh x Hx Hid).
  - rewrite Hpair. cbn [ir_error ir_toast ir_request ir_db].
    split; [eexists; reflexivity|]. auto.
Qed.

Lemma reinvite_after_acceptance_fails_witness :
  let r := handleInviteUser (fun _ => false) Sample.db1 Sample.alpha Sample.alice
             "Bob@x.com" owner 300%N 900%N 2000%Z in
  (exists c, ir_error r = Some (unique_violation c))
  /\ ((forall x, In x (project_invitations Sample.db1) -> inv_id x <> 300%N) ->
      ir_error r = Some (unique_violation "project_invitations_project_id_email_key"))
  /\ ir_toast r = Some toast_invite_error
  /\ ir_request r = None
  /\ In (mark_accepted Sample.bob_invitation 6%Z) (project_invitations (ir_db r))
  /\ filter (pending_for Sample.alpha (toLowerCase (trim "Bob@x.com")))
       (project_invitations (ir_db r)) = [].
Proof.
  apply (reinvite_after_acceptance_fails (fun _ => false) Sample.db1 Sample.alpha
           Sample.alice "Bob@x.com" owner 300%N 900%N 2000%Z 6%Z
           (mark_accepted Sample.bob_invitation 6%Z)).
  - reflexivity.
  - simpl; auto.
  - reflexivity.
  - reflexivity.
  - reflexivity.
  - reflexivity.
Defined.

(** ** What [accept_invitation] can and cannot do *)

(** The two ways the function returns. *)
Lemma accept_invitation_cases (d d' : db) (uid : option uuid) (tok id : uuid)
    (now : timestamptz) (j : json) :
  accept_invitation d uid tok id now = Ok (d', j) ->
  (d' = d
   /\ (j = json_failure "Invalid or expired invitation"
       \/ j = json_failure "Email does not match invitation"))
  \/ exists u inv ms,
       uid = Some u
       /\ select_invitation d tok now = Some inv
       /\ email_mismatch d uid inv = false
       /\ upsert_member (project_members d) (inv_project_id inv) u (inv_role inv)
            (inv_invited_by inv) id now = Ok ms
       /\ d' = set_project_invitations (set_project_members d ms)
                 (map (fun r => if (inv_id r =? inv_id inv)%N
                                then mark_accepted r now else r)
                      (project_invitations d))
       /\ j = json_success (inv_project_id inv).
Proof.
  unfold accept_invitation.
  destruct (select_invitation d tok now) as [inv|] eqn:Esel.
  2: { intros H. injection H as <- <-. left. auto. }
  destruct (email_mismatch d uid inv) eqn:Email.
  { intros H. injection H as <- <-. left. auto. }
  destruct uid as [u|]; [|discriminate].
  destruct (upsert_member _ _ _ _ _ _ _) as [ms|] eqn:Eup; [|discriminate].
  intros H. injection H as <- <-. right. exists u, inv, ms. auto 10.
Qed.

(** X1. A call that answers failure returns the database it was given,
    and the answer is one of the two messages of the function. *)
Theorem accept_invitation_failure_unchanged (d d' : db) (uid : option uuid)
    (tok id : uuid) (now : timestamptz) (msg : string) :
  accept_invitation d uid tok id now = Ok (d', json_failure msg) ->
  d' = d
  /\ (msg = "Invalid or expired invitation"%string
      \/ msg = "Email does not match invitation"%string).
Proof.
  intros H. apply accept_invitation_cases in H as [[-> Hj]|H].
  - split; [reflexivity|]. destruct Hj as [Hj|Hj]; injection Hj as ->; auto.
  - destruct H as (u & inv & ms & _ & _ & _ & _ & _ & Hj). discriminate.
Qed.

Lemma accept_invitation_failure_unchanged_witness :
  Sample.db0 = Sample.db0
  /\ ("Email does not match invitation"%string = "Invalid or expired invitation"%string
      \/ "Email does not match invitation"%string
         = "Email does not match invitation"%string).
Proof.
  apply (accept_invitation_failure_unchanged Sample.db0 Sample.db0 (Some Sample.alice)
           777%N 101%N 2000%Z "Email does not match invitation").
  reflexivity.
Defined.

Lemma upsert_member_joined (ms ms' : list project_member) (p u : uuid)
    (role : member_role) (invited_by new_id : uuid) (now : timestamptz) :
  upsert_member ms p u role invited_by new_id now = Ok ms' ->
  existsb (fun m => (pm_project_id m =? p)%N && (pm_user_id m =? u)%N
                    && is_not_null (pm_joined_at m)) ms' = true.
Proof.
  unfold upsert_member.
  destruct (existsb (same_project_user p u) ms) eqn:Hex.
  - intros H. injection H as <-.
    apply existsb_exists in Hex as (m0 & Hin0 & Hp0).
    apply existsb_exists. exists (on_conflict_update m0 role now). split.
    + apply in_map_iff. exists m0. rewrite Hp0. auto.
    + unfold same_project_user in Hp0. simpl. rewrite Hp0. reflexivity.
  - destruct (existsb (fun m => (pm_id m =? new_id)%N) ms); [discriminate|].
    intros H. injection H as <-. rewrite existsb_app. simpl.
    rewrite !N.eqb_refl. simpl. apply orb_true_r.
Qed.

(** X2. A call that answers success has found an unaccepted, unexpired
    invitation with that token, addressed to the caller's account email
    (or the caller has no account email at all); afterwards the caller
    passes [is_project_member] on the invitation's project and the
    invitation row carries [accepted_at]. *)
Theorem accept_invitation_success_sound (d d' : db) (uid : option uuid)
    (tok id project_id : uuid) (now : timestamptz) :
  accept_invitation d uid tok id now = Ok (d', json_success project_id) ->
  exists inv,
    In inv (project_invitations d)
    /\ inv_token inv = tok
    /\ inv_project_id inv = project_id
    /\ inv_accepted_at inv = None
    /\ (now < inv_expires_at inv)%Z
    /\ (get_current_user_email d uid = Some (inv_email inv)
        \/ get_current_user_email d uid = None)
    /\ is_project_member d' uid project_id = true
    /\ In (mark_accepted inv now) (project_invitations d').
Proof.
  intros H. apply accept_invitation_cases in H as [[_ [Hj|Hj]]|H]; try discriminate.
  destruct H as (u & inv & ms & -> & Hsel & Hmail & Hup & -> & Hj).
  injection Hj as ->.
  apply select_invitation_sound in Hsel as (Hin & Htok & Hexp & Hacc).
  exists inv. repeat (split; [assumption || reflexivity|]).
  split; [|split].
  - unfold email_mismatch in Hmail.
    destruct (get_current_user_email d (Some u)) as [e|]; [|auto].
    left. simpl in Hmail. destruct (String.eqb_spec e (inv_email inv)); [congruence|].
    discriminate.
  - unfold is_project_member. simpl. eapply upsert_member_joined. exact Hup.
  - simpl. apply in_map_iff. exists inv. rewrite N.eqb_refl. auto.
Qed.

Lemma accept_invitation_success_sound_witness :
  let d' := exec Sample.db0 (AcceptInvitation (Some Sample.bob) 777%N 101%N 2000%Z) in
  exists inv,
    In inv (project_invitations Sample.db0)
    /\ inv_token inv = 777%N
    /\ inv_project_id inv = Sample.alpha
    /\ inv_accepted_at inv = None
    /\ (2000 < inv_expires_at inv)%Z
    /\ (get_current_user_email Sample.db0 (Some Sample.bob) = Some (inv_email inv)
        \/ get_current_user_email Sample.db0 (Some Sample.bob) = None)
    /\ is_project_member d' (Some Sample.bob) Sample.alpha = true
    /\ In (mark_accepted inv 2000%Z) (project_invitations d').
Proof.
  apply (accept_invitation_success_sound Sample.db0
           (exec Sample.db0 (AcceptInvitation (Some Sample.bob) 777%N 101%N 2000%Z))
           (Some Sample.bob) 777%N 101%N Sample.alpha 2000%Z).
  reflexivity.
Defined.

Lemma upsert_member_others (ms ms' : list project_member) (p u : uuid)
    (role : member_role) (invited_by new_id : uuid) (now : timestamptz) :
  upsert_member ms p u role invited_by new_id now = Ok ms' ->
  filter (fun m => negb (same_project_user p u m)) ms'
  = filter (fun m => negb (same_project_user p u m)) ms.
Proof.
  unfold upsert_member.
  destruct (existsb (same_project_user p u) ms) eqn:Hex.
  - intros H. injection H as <-. clear Hex.
    induction ms as [|a ms IH]; simpl; [reflexivity|].
    destruct (same_project_user p u a) eqn:Ea; simpl.
    + unfold same_project_user in *. simpl. rewrite Ea. simpl. exact IH.
    + rewrite Ea. simpl. f_equal. exact IH.
  - destruct (existsb (fun m => (pm_id m =? new_id)%N) ms); [discriminate|].
    intros H. injection H as <-. rewrite filter_app. simpl.
    unfold same_project_user at 2. simpl. rewrite !N.eqb_refl. simpl.
    apply app_nil_r.
Qed.

(** X3. Whatever it answers, [accept_invitation] leaves users, profiles,
    projects and columns alone, and among the memberships it touches only
    the caller's row of the invitation's project: all other rows stay
    as they were, in their order. *)
Theorem accept_invitation_frame (d d' : db) (uid : option uuid) (tok id : uuid)
    (now : timestamptz) (j : json) :
  accept_invitation d uid tok id now = Ok (d', j) ->
  auth_users d' = auth_users d
  /\ profiles d' = profiles d
  /\ projects d' = projects d
  /\ columns d' = columns d
  /\ forall u project_id,
       uid = Some u -> j = json_success project_id ->
       filter (fun m => negb (same_project_user project_id u m)) (project_members d')
       = filter (fun m => negb (same_project_user project_id u m)) (project_members d).
Proof.
  intros H. apply accept_invitation_cases in H as [[-> Hj]|H].
  - repeat (split; [reflexivity|]). intros; reflexivity.
  - destruct H as (u & inv & ms & -> & _ & _ & Hup & -> & ->).
    repeat (split; [reflexivity|]).
    intros u' p Hu Hp. injection Hu as <-. injection Hp as <-. simpl.
    eapply upsert_member_others. exact Hup.
Qed.

Lemma accept_invitation_frame_witness :
  let d' := exec Sample.db0 (AcceptInvitation (Some Sample.bob) 777%N 101%N 2000%Z) in
  auth_users d' = auth_users Sample.db0
  /\ profiles d' = profiles Sample.db0
  /\ projects d' = projects Sample.db0
  /\ columns d' = columns Sample.db0
  /\ forall u project_id,
       Some Sample.bob = Some u -> json_success Sample.alpha = json_success project_id ->
       filter (fun m => negb (same_project_user project_id u m)) (project_members d')
       = filter (fun m => negb (same_project_user project_id u m))
           (project_members Sample.db0).
Proof.
  apply (accept_invitation_frame Sample.db0
           (exec Sample.db0 (AcceptInvitation (Some Sample.bob) 777%N 101%N 2000%Z))
           (Some Sample.bob) 777%N 101%N 2000%Z (json_success Sample.alpha)).
  reflexivity.
Defined.

(** ** [UNIQUE(project_id, user_id)] under every statement *)

Lemma upsert_member_keeps (ms ms' : list project_member) (p u : uuid)
    (role : member_role) (invited_by new_id : uuid) (now : timestamptz) :
  (forall p' u', (List.length (filter (same_project_user p' u') ms) <= 1)%nat) ->
  upsert_member ms p u role invited_by new_id now = Ok ms' ->
  forall p' u', (List.length (filter (same_project_user p' u') ms') <= 1)%nat.
Proof.
  intros H. unfold upsert_member.
  destruct (existsb (same_project_user p u) ms) eqn:Hex.
  - intros E. injection E as <-. intros p' u'.
    rewrite filter_map_stable.
    + rewrite length_map. apply H.
    + intros x. destruct (same_project_user p u x); reflexivity.
  - destruct (existsb (fun m => (pm_id m =? new_id)%N) ms); [discriminate|].
    intros E. injection E as <-. intros p' u'.
    rewrite filter_app, length_app. simpl.
    destruct (same_project_user p' u' _) eqn:Enew; simpl; [|specialize (H p' u'); lia].
    apply same_project_user_spec in Enew as [<- <-]. simpl.
    rewrite (existsb_false_filter_nil _ _ Hex). simpl. lia.
Qed.

Lemma insert_project_members (d d' : db) (uid : option uuid) (name : string)
    (description : option string) (owner_id new_id new_member_id c0 c1 c2 : uuid)
    (now : timestamptz) :
  insert_project d uid name description owner_id new_id new_member_id c0 c1 c2 now
  = Ok d' ->
  existsb (same_project_user new_id owner_id) (project_members d) = false
  /\ project_members d'
     = project_members d ++
       [ {| pm_id := new_member_id; pm_project_id := new_id; pm_user_id := owner_id;
            pm_role := owner; pm_invited_by := owner_id; pm_invited_at := now;
            pm_joined_at := Some now; pm_created_at := now; pm_updated_at := now |} ].
Proof.
  unfold insert_project.
  destruct (negb _); [discriminate|].
  destruct (existsb _ (projects d)); [discriminate|].
  destruct (negb _); [discriminate|].
  destruct (add_owner_as_member _ _ _ _) as [d1|] eqn:Eadd; [|discriminate].
  intros Hcols. apply create_default_columns_tables in Hcols as [_ Hm].
  unfold add_owner_as_member in Eadd. simpl in Eadd.
  destruct (existsb (fun m => (pm_id m =? new_member_id)%N) (project_members d));
    [discriminate|].
  destruct (existsb (same_project_user new_id owner_id) (project_members d)) eqn:Epair;
    [discriminate|].
  injection Eadd as <-. split; [reflexivity|]. exact Hm.
Qed.

Lemma exec_keeps_members_unique (d : db) (s : statement) :
  members_unique d -> members_unique (exec d s).
Proof.
  intros H. destruct s; simpl.
  - exact H.
  - destruct (insert_invitation _ _ _) as [d'|] eqn:E; simpl; [|exact H].
    apply insert_invitation_ok in E as [_ ->]. exact H.
  - exact H.
  - destruct (accept_invitation _ _ _ _ _) as [[d' j]|] eqn:E; [|exact H].
    apply accept_invitation_cases in E as [[-> _]|E]; [exact H|].
    destruct E as (u & inv & ms & _ & _ & _ & Hup & -> & _).
    intros p' u'. simpl. eapply upsert_member_keeps; eauto.
  - intros p u. unfold handleRemoveMember, delete_members. simpl.
    etransitivity; [apply length_filter_sub | apply H].
  - intros p u. unfold handleUpdateRole, update_members_role. simpl.
    rewrite filter_map_stable.
    + rewrite length_map. apply H.
    + intros x. destruct (_ && _); reflexivity.
  - destruct (insert_project _ _ _ _ _ _ _ _ _ _ _) as [d'|] eqn:E; simpl; [|exact H].
    apply insert_project_members in E as [Hnone Hm].
    intros p u. rewrite Hm, filter_app, length_app. simpl.
    destruct (same_project_user p u _) eqn:Enew; simpl; [|specialize (H p u); lia].
    apply same_project_user_spec in Enew as [<- <-]. simpl.
    rewrite (existsb_false_filter_nil _ _ Hnone). simpl. lia.
Qed.

(** X4. At most one membership row per (project, user): every statement
    the clients issue keeps it, in whatever order the statements
    arrive. *)
Theorem members_unique_invariant (d : db) (l : list statement) :
  members_unique d -> members_unique (run d l).
Proof.
  revert d. induction l as [|s l IH]; intros d H; simpl; [exact H|].
  apply IH, exec_keeps_members_unique, H.
Qed.

Lemma members_unique_invariant_witness :
  members_unique
    (run Sample.db0
       [AcceptInvitation (Some Sample.bob) 777%N 101%N 2000%Z;
        UpdateRole Sample.alice 101%N owner 2500%Z;
        InsertProject (Some Sample.bob) "Beta" None Sample.bob 11%N 102%N
          20%N 21%N 22%N 3000%Z;
        DeleteMember Sample.alice 101%N]).
Proof.
  apply (members_unique_invariant Sample.db0). exact sample_db0_members_unique.
Defined.

(** ** Tokens that no longer work *)

Lemma select_invitation_gone (d : db) (tok : uuid) (now : timestamptz) :
  (forall r, In r (project_invitations d) -> inv_token r <> tok) ->
  select_invitation d tok now = None.
Proof.
  intros H. unfold select_invitation. apply find_none_forall.
  intros x Hx. unfold acceptable.
  specialize (H x Hx). apply N.eqb_neq in H. rewrite H. reflexivity.
Qed.

(** X5. After the owner or an accepted member has revoked an invitation,
    the token of that invitation is refused: [accept_invitation] answers
    "Invalid or expired invitation" to anyone and changes nothing. *)
Theorem revoked_invitation_refused (d : db) (userId : uuid) (inv : project_invitation)
    (uid : option uuid) (new_member_id : uuid) (now : timestamptz) :
  In inv (project_invitations d) ->
  token_identifies d inv ->
  owner_or_member d (Some userId) (inv_project_id inv) = true ->
  let d' := handleRevokeInvitation d userId (inv_id inv) in
  ~ In inv (project_invitations d')
  /\ accept_invitation d' uid (inv_token inv) new_member_id now
     = Ok (d', json_failure "Invalid or expired invitation").
Proof.
  intros Hin Htok Hauth d'. subst d'.
  assert (Hgone : ~ In inv (project_invitations
                              (handleRevokeInvitation d userId (inv_id inv)))).
  { unfold handleRevokeInvitation, delete_invitations. simpl.
    rewrite filter_In, invitation_deleted_by_id, Hauth. simpl.
    intros [_ H]. discriminate. }
  split; [exact Hgone|].
  unfold accept_invitation. rewrite select_invitation_gone; [reflexivity|].
  intros r Hr Heq. apply Hgone.
  assert (Hr0 : In r (project_invitations d)).
  { unfold handleRevokeInvitation, delete_invitations in Hr. simpl in Hr.
    apply filter_In in Hr. tauto. }
  assert (r = inv) by (apply Htok; assumption). subst r. exact Hr.
Qed.

Lemma revoked_invitation_refused_witness :
  let d' := handleRevokeInvitation Sample.db0 Sample.alice 200%N in
  ~ In Sample.bob_invitation (project_invitations d')
  /\ accept_invitation d' (Some Sample.bob) 777%N 101%N 2000%Z
     = Ok (d', json_failure "Invalid or expired invitation").
Proof.
  apply (revoked_invitation_refused Sample.db0 Sample.alice Sample.bob_invitation
           (Some Sample.bob) 101%N 2000%Z).
  - simpl; auto.
  - exact sample_db0_token.
  - reflexivity.
Defined.

(** X6. When [handleInviteUser] goes through, every invitation it
    superseded is gone and its token is refused from then on. *)
Theorem superseded_token_refused (send_invitation : InvitationRequest -> bool)
    (d : db) (projectId userId : uuid) (inviteEmail : string)
    (inviteRole : member_role) (new_id new_token : uuid) (now : timestamptz)
    (old : project_invitation) (uid : option uuid) (new_member_id : uuid)
    (now' : timestamptz) :
  let r := handleInviteUser send_invitation d projectId userId inviteEmail inviteRole
             new_id new_token now in
  truthy (trim inviteEmail) = true ->
  ir_error r = None ->
  In old (project_invitations d) ->
  pending_for projectId (toLowerCase (trim inviteEmail)) old = true ->
  token_identifies d old ->
  inv_token old <> new_token ->
  ~ In old (project_invitations (ir_db r))
  /\ accept_invitation (ir_db r) uid (inv_token old) new_member_id now'
     = Ok (ir_db r, json_failure "Invalid or expired invitation").
Proof.
  cbv zeta. unfold handleInviteUser. intros Hne. rewrite Hne. cbn [negb].
  set (email := toLowerCase (trim inviteEmail)).
  set (d1 := delete_invitations d (Some userId) (pending_for projectId email)).
  destruct (insert_invitation d1 _ _) as [d2|e] eqn:E; cbn [ir_db ir_error];
    [|discriminate].
  intros _ Hin Hpend Htok Hfresh.
  apply insert_invitation_ok in E as [Hauth ->].
  cbn [inv_project_id new_invitation] in Hauth.
  unfold d1 in Hauth. rewrite owner_or_member_delete_invitations in Hauth.
  assert (Hdel : ~ In old (project_invitations d1)).
  { intros H.
    assert (Hf : In old (filter (pending_for projectId email) (project_invitations d1)))
      by (apply filter_In; auto).
    unfold d1 in Hf. rewrite (supersession_delete d userId projectId email Hauth) in Hf.
    exact Hf. }
  assert (Hsub : forall x, In x (project_invitations d1) -> In x (project_invitations d)).
  { intros x Hx. unfold d1, delete_invitations in Hx. simpl in Hx.
    apply filter_In in Hx. tauto. }
  cbn [project_invitations set_project_invitations]. split.
  - intros H. apply in_app_or in H as [H|[H|[]]]; [exact (Hdel H)|].
    apply Hfresh. rewrite <- H. reflexivity.
  - unfold accept_invitation. rewrite select_invitation_gone; [reflexivity|].
    cbn [project_invitations set_project_invitations].
    intros x Hx Heq. apply in_app_or in Hx as [Hx|[Hx|[]]].
    + apply Hdel. rewrite <- (Htok x (Hsub x Hx) Heq). exact Hx.
    + apply Hfresh. rewrite <- Heq, <- Hx. reflexivity.
Qed.

Lemma superseded_token_refused_witness :
  let r := handleInviteUser (fun _ => false) Sample.db0 Sample.alpha Sample.alice
             "  Bob@X.com " owner 202%N 779%N 5000%Z in
  ~ In Sample.bob_invitation (project_invitations (ir_db r))
  /\ accept_invitation (ir_db r) (Some Sample.bob) 777%N 101%N 6000%Z
     = Ok (ir_db r, json_failure "Invalid or expired invitation").
Proof.
  apply (superseded_token_refused (fun _ => false) Sample.db0 Sample.alpha Sample.alice
           "  Bob@X.com " owner 202%N 779%N 5000%Z Sample.bob_invitation
           (Some Sample.bob) 101%N 6000%Z).
  - reflexivity.
  - reflexivity.
  - simpl; auto.
  - reflexivity.
  - exact sample_db0_token.
  - discriminate.
Defined.

(** ** Role changes, removals and invitations by callers without rights *)

Lemma existsb_map_stable {A} (P : A -> bool) (f : A -> A) (l : list A) :
  (forall x, P (f x) = P x) -> existsb P (map f l) = existsb P l.
Proof.
  intros Hf. induction l as [|a l IH]; simpl; [reflexivity|].
  rewrite Hf, IH. reflexivity.
Qed.

Lemma filter_keeps_all {A} (P : A -> bool) (l : list A) :
  (forall x, In x l -> P x = true) -> filter P l = l.
Proof.
  induction l as [|a l IH]; simpl; intros H; [reflexivity|].
  rewrite (H a) by auto. f_equal. apply IH. intros; apply H; auto.
Qed.

Lemma set_project_members_same (d : db) : set_project_members d (project_members d) = d.
Proof. destruct d; reflexivity. Qed.

Lemma set_project_invitations_same (d : db) :
  set_project_invitations d (project_invitations d) = d.
Proof. destruct d; reflexivity. Qed.

(** X7. A role change, also one to [owner], changes nobody's answer from
    [is_project_owner] or [is_project_member]: the role column gives no
    rights, ownership is [projects.owner_id] alone. *)
Theorem role_change_keeps_access (d : db) (userId memberId : uuid)
    (newRole : member_role) (now : timestamptz) (uid : option uuid) (project_id : uuid) :
  let d' := handleUpdateRole d userId memberId newRole now in
  is_project_owner d' uid project_id = is_project_owner d uid project_id
  /\ is_project_member d' uid project_id = is_project_member d uid project_id.
Proof.
  cbv zeta. split; [destruct uid; reflexivity|].
  destruct uid as [u|]; [|reflexivity].
  unfold is_project_member, handleUpdateRole, update_members_role. simpl.
  apply existsb_map_stable. intros x.
  match goal with |- context [if ?c then _ else _] => destruct c end; reflexivity.
Qed.



(** X9. [handleRemoveMember] by a caller who does not own the project of
    the targeted row changes nothing: a contributor can remove neither
    another member nor themselves. *)
Theorem handleRemoveMember_not_owner (d : db) (userId memberId : uuid) :
  (forall m, In m (project_members d) -> pm_id m = memberId ->
             is_project_owner d (Some userId) (pm_project_id m) = false) ->
  handleRemoveMember d userId memberId = d.
Proof.
  intros H. unfold handleRemoveMember, delete_members.
  rewrite filter_keeps_all; [apply set_project_members_same|].
  intros m Hm. unfold member_deleted, members_delete_policy.
  destruct (N.eqb_spec (pm_id m) memberId) as [E|E]; [|reflexivity].
  rewrite (H m Hm E). reflexivity.
Qed.

Lemma handleRemoveMember_not_owner_witness :
  handleRemoveMember Sample.db1 Sample.bob 101%N = Sample.db1.
Proof.
  apply (handleRemoveMember_not_owner Sample.db1 Sample.bob 101%N).
  intros m [<-|[<-|[]]] _; reflexivity.
Defined.

(** X10. [handleInviteUser] by a caller who is neither owner nor accepted
    member of the project changes nothing: the supersession delete
    removes no row, the insert is refused by the policy, no email request
    is made and the "Error" toast is shown. *)
Theorem handleInviteUser_outsider (send_invitation : InvitationRequest -> bool)
    (d : db) (projectId userId : uuid) (inviteEmail : string)
    (inviteRole : member_role) (new_id new_token : uuid) (now : timestamptz) :
  truthy (trim inviteEmail) = true ->
  owner_or_member d (Some userId) projectId = false ->
  handleInviteUser send_invitation d projectId userId inviteEmail inviteRole
    new_id new_token now
  = {| ir_db := d; ir_toast := Some toast_invite_error;
       ir_error := Some (rls_violation "project_invitations");
       ir_request := None; ir_completed := false |}.
Proof.
  intros Hne Hout. unfold handleInviteUser. rewrite Hne. cbn [negb].
  assert (Hd : delete_invitations d (Some userId)
                 (pending_for projectId (toLowerCase (trim inviteEmail))) = d).
  { unfold delete_invitations.
    rewrite filter_keeps_all; [apply set_project_invitations_same|].
    intros x Hx. unfold invitation_deleted, invitations_delete_policy.
    destruct (pending_for _ _ x) eqn:Hp; [|reflexivity].
    apply pending_for_spec in Hp as (-> & _ & _).
    unfold owner_or_member in Hout. rewrite Hout. reflexivity. }
  rewrite Hd. unfold insert_invitation, invitations_insert_check.
  cbn [inv_project_id new_invitation].
  unfold owner_or_member in Hout. rewrite Hout. reflexivity.
Qed.

Lemma handleInviteUser_outsider_witness :
  handleInviteUser (fun _ => false) Sample.db1 Sample.alpha Sample.carol
    "dave@x.com" contributor 300%N 900%N 2000%Z
  = {| ir_db := Sample.db1; ir_toast := Some toast_invite_error;
       ir_error := Some (rls_violation "project_invitations");
       ir_request := None; ir_completed := false |}.
Proof.
  apply (handleInviteUser_outsider (fun _ => false) Sample.db1 Sample.alpha Sample.carol
           "dave@x.com" contributor 300%N 900%N 2000%Z).
  - reflexivity.
  - reflexivity.
Defined.

(** ** What the queries show *)

(** X11. To a caller who is neither owner nor accepted member of a
    project the team page lists no member of it, and only those pending
    invitations of it that are addressed to the caller's own account
    email. *)
Theorem outsider_sees_own_invitations_only (d : db) (uid : option uuid)
    (projectId : uuid) (now : timestamptz) :
  owner_or_member d uid projectId = false ->
  fetch_members d uid projectId = []
  /\ forall r, In r (fetch_pending_invitations d uid projectId now) ->
               get_current_user_email d uid = Some (inv_email r).
Proof.
  intros Hout. unfold owner_or_member in Hout. split.
  - unfold fetch_members. apply forall_false_filter_nil. intros m _.
    destruct (N.eqb_spec (pm_project_id m) projectId) as [E|E].
    + unfold members_select_policy. rewrite E, Hout.
      apply orb_false_iff in Hout as [-> _]. reflexivity.
    + rewrite andb_false_r. reflexivity.
  - intros r Hr. unfold fetch_pending_invitations in Hr.
    apply filter_In in Hr as [_ Hr].
    apply andb_true_iff in Hr as [Hr _]. apply andb_true_iff in Hr as [Hr _].
    apply andb_true_iff in Hr as [Hpol Hproj]. apply N.eqb_eq in Hproj.
    unfold invitations_select_policy in Hpol. rewrite Hproj, Hout in Hpol.
    simpl in Hpol. destruct (get_current_user_email d uid) as [e|]; [|discriminate].
    simpl in Hpol. destruct (String.eqb_spec (inv_email r) e); [congruence|discriminate].
Qed.

Lemma outsider_sees_own_invitations_only_witness :
  fetch_members Sample.db1 (Some Sample.carol) Sample.alpha = []
  /\ forall r,
       In r (fetch_pending_invitations Sample.db1 (Some Sample.carol) Sample.alpha 2000%Z) ->
       get_current_user_email Sample.db1 (Some Sample.carol) = Some (inv_email r).
Proof.
  apply (outsider_sees_own_invitations_only Sample.db1 (Some Sample.carol)
           Sample.alpha 2000%Z).
  reflexivity.
Defined.

(** X12. A request without a session sees no row at all: the team page
    lists no member and no pending invitation, and the acceptance page
    answers "invalid invitation" for every token, valid or not. *)
Theorem anonymous_sees_nothing (d : db) (projectId token : uuid) (now : timestamptz) :
  fetch_members d None projectId = []
  /\ fetch_pending_invitations d None projectId now = []
  /\ fetchInvitation d None token now = page_invalid_invitation.
Proof.
  split; [|split].
  - unfold fetch_members. apply forall_false_filter_nil. intros; reflexivity.
  - unfold fetch_pending_invitations. apply forall_false_filter_nil. intros; reflexivity.
  - unfold fetchInvitation, fetch_invitation.
    rewrite forall_false_filter_nil; [reflexivity|]. intros; reflexivity.
Qed.

(** ** The default columns of a new project *)

Lemma insert_project_columns (d d' : db) (uid : option uuid) (name : string)
    (description : option string) (owner_id new_id new_member_id c0 c1 c2 : uuid)
    (now : timestamptz) :
  insert_project d uid name description owner_id new_id new_member_id c0 c1 c2 now
  = Ok d' ->
  columns d'
  = columns d ++
    [ {| col_id := c0; col_project_id := new_id; col_name := "To Do";
         col_position := 0%Z; col_created_at := now |};
      {| col_id := c1; col_project_id := new_id; col_name := "In Progress";
         col_position := 1%Z; col_created_at := now |};
      {| col_id := c2; col_project_id := new_id; col_name := "Done";
         col_position := 2%Z; col_created_at := now |} ].
Proof.
  unfold insert_project, add_owner_as_member, create_default_columns, insert_column.
  repeat match goal with
         | |- context [if ?b then _ else _] => destruct b; simpl; try discriminate
         end.
  intros H. injection H as <-. simpl. rewrite <- !app_assoc. reflexivity.
Qed.

(** X13. A completed project insert adds exactly the three columns
    "To Do", "In Progress" and "Done" at positions 0, 1 and 2, after the
    columns that were there; when no column row carried the new project's
    id before, they are all the columns of the project, in that order. *)
Theorem insert_project_default_columns (d d' : db) (uid : option uuid) (name : string)
    (description : option string) (owner_id new_id new_member_id c0 c1 c2 : uuid)
    (now : timestamptz) :
  insert_project d uid name description owner_id new_id new_member_id c0 c1 c2 now
  = Ok d' ->
  (forall c, In c (columns d) -> col_project_id c <> new_id) ->
  (exists added, columns d' = columns d ++ added /\ List.length added = 3%nat)
  /\ map (fun c => (col_id c, col_name c, col_position c))
         (filter (fun c => (col_project_id c =? new_id)%N) (columns d'))
     = [ (c0, "To Do"%string, 0%Z); (c1, "In Progress"%string, 1%Z);
         (c2, "Done"%string, 2%Z) ].
Proof.
  intros H Hnone. rewrite (insert_project_columns _ _ _ _ _ _ _ _ _ _ _ _ H). split.
  - eexists. split; reflexivity.
  - rewrite filter_app.
    rewrite forall_false_filter_nil
      by (intros c Hc; apply N.eqb_neq; apply Hnone; exact Hc).
    simpl. rewrite !N.eqb_refl. reflexivity.
Qed.

Lemma insert_project_default_columns_witness :
  let d' :=
    exec (set_projects Sample.db0 [])
      (InsertProject (Some Sample.bob) "Beta" None Sample.bob 11%N 102%N
         20%N 21%N 22%N 3000%Z) in
  (exists added,
     columns d' = columns (set_projects Sample.db0 []) ++ added
     /\ List.length added = 3%nat)
  /\ map (fun c => (col_id c, col_name c, col_position c))
         (filter (fun c => (col_project_id c =? 11)%N) (columns d'))
     = [ (20%N, "To Do"%string, 0%Z); (21%N, "In Progress"%string, 1%Z);
         (22%N, "Done"%string, 2%Z) ].
Proof.
  apply (insert_project_default_columns (set_projects Sample.db0 [])
           (exec (set_projects Sample.db0 [])
              (InsertProject (Some Sample.bob) "Beta" None Sample.bob 11%N 102%N
                 20%N 21%N 22%N 3000%Z))
           (Some Sample.bob) "Beta" None Sample.bob 11%N 102%N 20%N 21%N 22%N 3000%Z).
  - reflexivity.
  - intros c [].
Defined.

(** ** The backfill of owner memberships *)

Lemma backfill_insert_spec (rows : list project) (ids : nat -> uuid)
    (now : timestamptz) :
  forall (n : nat) (ms ms' : list project_member),
    backfill_insert rows ids n ms now = Ok ms' ->
    (exists added, ms' = ms ++ added /\ Forall (backfilled now) added)
    /\ (forall p, In p rows ->
                  existsb (same_project_user (proj_id p) (proj_owner_id p)) ms' = true)
    /\ ((forall p u, (List.length (filter (same_project_user p u) ms) <= 1)%nat) ->
        forall p u, (List.length (filter (same_project_user p u) ms') <= 1)%nat).
Proof.
  induction rows as [|p rest IH]; intros n ms ms' H; simpl in H.
  - injection H as <-. split; [|split].
    + exists []. rewrite app_nil_r. auto.
    + intros p [].
    + auto.
  - destruct (existsb (same_project_user (proj_id p) (proj_owner_id p)) ms) eqn:Epair.
    + destruct (IH _ _ _ H) as ((added & -> & Hadded) & Hall & Huniq).
      split; [eauto|]. split; [|exact Huniq].
      intros q [<-|Hq]; [|auto]. rewrite existsb_app, Epair. reflexivity.
    + destruct (existsb (fun m => (pm_id m =? ids n)%N) ms); [discriminate|].
      destruct (IH _ _ _ H) as ((added & -> & Hadded) & Hall & Huniq).
      split; [|split].
      * eexists. rewrite <- app_assoc. split; [reflexivity|].
        constructor; [|exact Hadded]. repeat split.
      * intros q [<-|Hq]; [|auto]. rewrite <- app_assoc, !existsb_app. simpl.
        unfold same_project_user at 2. simpl. rewrite !N.eqb_refl. simpl.
        apply orb_true_r.
      * intros H0. apply Huniq. intros p' u'.
        rewrite filter_app, length_app. simpl.
        destruct (same_project_user p' u' _) eqn:Enew; simpl;
          [|specialize (H0 p' u'); lia].
        apply same_project_user_spec in Enew as [<- <-]. simpl.
        rewrite (existsb_false_filter_nil _ _ Epair). simpl. lia.
Qed.

(** X14. When the backfill completes, the projects are untouched, the
    old membership rows are all still there, and the added rows are owner
    rows with [joined_at] set; every project then has a membership row of
    its owner, and an owner who had none passes [is_project_member]. The
    (project, user) uniqueness is kept, and running the backfill again
    changes nothing. *)
Theorem backfill_owner_memberships_spec (d d' : db) (ids : nat -> uuid)
    (now : timestamptz) :
  backfill_owner_memberships d ids now = Ok d' ->
  projects d' = projects d
  /\ (exists added,
        project_members d' = project_members d ++ added
        /\ Forall (backfilled now) added)
  /\ (forall p, In p (projects d') ->
        existsb (same_project_user (proj_id p) (proj_owner_id p)) (project_members d')
        = true)
  /\ (forall p, In p (projects d) ->
        owner_row_missing (project_members d) p = true ->
        is_project_member d' (Some (proj_owner_id p)) (proj_id p) = true)
  /\ (members_unique d -> members_unique d')
  /\ forall ids' now', backfill_owner_memberships d' ids' now' = Ok d'.
Proof.
  unfold backfill_owner_memberships.
  destruct (backfill_insert _ ids 0 (project_members d) now) as [ms|] eqn:E;
    [|discriminate].
  intros H. injection H as <-.
  destruct (backfill_insert_spec _ _ _ _ _ _ E) as ((added & Hms & Hadded) & Hall & Huniq).
  assert (Hevery : forall p, In p (projects d) ->
            existsb (same_project_user (proj_id p) (proj_owner_id p)) ms = true).
  { intros p Hp.
    destruct (owner_row_missing (project_members d) p) eqn:Emiss.
    - apply Hall. apply filter_In. auto.
    - unfold owner_row_missing in Emiss. apply negb_false_iff in Emiss.
      rewrite Hms, existsb_app, Emiss. reflexivity. }
  simpl. split; [reflexivity|]. split; [eauto|]. split; [exact Hevery|].
  split; [|split].
  - intros p Hp Hmiss.
    destruct (proj1 (existsb_exists _ _) (Hevery p Hp)) as (m & Hm & Hpair).
    rewrite Hms in Hm. apply in_app_or in Hm as [Hm|Hm].
    + unfold owner_row_missing in Hmiss. apply negb_true_iff in Hmiss.
      assert (existsb (same_project_user (proj_id p) (proj_owner_id p))
                (project_members d) = true) by (apply existsb_exists; eauto).
      congruence.
    + rewrite Forall_forall in Hadded. destruct (Hadded m Hm) as (_ & Hjoin & _).
      apply existsb_exists. exists m. split.
      * rewrite Hms. apply in_or_app. auto.
      * unfold same_project_user in Hpair. rewrite Hpair, Hjoin. reflexivity.
  - intros H p u. apply Huniq. exact H.
  - intros ids' now'.
    rewrite forall_false_filter_nil.
    + simpl. destruct d; reflexivity.
    + intros p Hp. unfold owner_row_missing. rewrite (Hevery p Hp). reflexivity.
Qed.

Lemma backfill_owner_memberships_spec_witness :
  let d := set_project_members Sample.db1 [Sample.bob_membership] in
  let d' := or_unchanged d (backfill_owner_memberships d (fun n => N.of_nat (500 + n)) 9000%Z) in
  projects d' = projects d
  /\ (exists added,
        project_members d' = project_members d ++ added
        /\ Forall (backfilled 9000%Z) added)
  /\ (forall p, In p (projects d') ->
        existsb (same_project_user (proj_id p) (proj_owner_id p)) (project_members d')
        = true)
  /\ (forall p, In p (projects d) ->
        owner_row_missing (project_members d) p = true ->
        is_project_member d' (Some (proj_owner_id p)) (proj_id p) = true)
  /\ (members_unique d -> members_unique d')
  /\ forall ids' now', backfill_owner_memberships d' ids' now' = Ok d'.
Proof.
  apply (backfill_owner_memberships_spec
           (set_project_members Sample.db1 [Sample.bob_membership]) _
           (fun n => N.of_nat (500 + n)) 9000%Z).
  reflexivity.
Defined.

(** ** Dragging issues on the board *)

Lemma with_column_id_same (i : issue) : with_column_id i (iss_column_id i) = i.
Proof. destruct i; reflexivity. Qed.

Lemma move_issue_shape (issues : list issue) (activeId c : uuid) :
  Forall2 (fun a b => b = a \/ (iss_id a = activeId /\ b = with_column_id a c))
          issues (move_issue issues activeId c).
Proof.
  induction issues as [|a l IH]; simpl; constructor; [|exact IH].
  destruct (N.eqb_spec (iss_id a) activeId); auto.
Qed.

Lemma Forall2_same {A} (R : A -> A -> Prop) (l : list A) :
  (forall a, R a a) -> Forall2 R l l.
Proof. intros H. induction l; constructor; auto. Qed.

Lemma find_move_issue (issues : list issue) (activeId c : uuid) (a : issue) :
  find (fun i => (iss_id i =? activeId)%N) issues = Some a ->
  find (fun i => (iss_id i =? activeId)%N) (move_issue issues activeId c)
  = Some (with_column_id a c).
Proof.
  induction issues as [|x l IH]; simpl; [discriminate|].
  destruct (iss_id x =? activeId)%N eqn:E; simpl.
  - intros H. injection H as <-. rewrite E. reflexivity.
  - rewrite E. exact IH.
Qed.

Lemma find_move_other (issues : list issue) (activeId overId c : uuid) :
  overId <> activeId ->
  find (fun i => (iss_id i =? overId)%N) (move_issue issues activeId c)
  = find (fun i => (iss_id i =? overId)%N) issues.
Proof.
  intros Hne. induction issues as [|x l IH]; simpl; [reflexivity|].
  destruct (N.eqb_spec (iss_id x) activeId) as [E|E]; simpl.
  - rewrite E. apply N.eqb_neq in Hne. rewrite N.eqb_sym in Hne. rewrite Hne. exact IH.
  - rewrite IH. reflexivity.
Qed.

(** X15. [handleDragOver] keeps the issues, their order and everything
    about them except [column_id], and changes [column_id] of the dragged
    issue only: no issue is lost, duplicated or reordered, and status and
    position never change. With nothing under the pointer, or an unknown
    dragged id, the list is returned as it is. *)
Theorem handleDragOver_shape (issues : list issue) (columns : list column)
    (activeId : uuid) (over : option uuid) :
  let issues' := handleDragOver issues columns activeId over in
  (exists c,
     Forall2 (fun a b => b = a \/ (iss_id a = activeId /\ b = with_column_id a c))
             issues issues')
  /\ map iss_id issues' = map iss_id issues
  /\ (over = None -> issues' = issues)
  /\ (find (fun i => (iss_id i =? activeId)%N) issues = None -> issues' = issues).
Proof.
  cbv zeta.
  assert (Hcases : handleDragOver issues columns activeId over = issues
                   \/ exists c, handleDragOver issues columns activeId over
                                = move_issue issues activeId c).
  { unfold handleDragOver. destruct over as [overId|]; [|auto].
    destruct (find _ issues) as [a|]; [|auto].
    destruct (existsb _ columns).
    - destruct (negb _); eauto.
    - destruct (find _ issues) as [o|]; [|auto]. destruct (negb _); eauto. }
  split; [|split; [|split]].
  - destruct Hcases as [->|[c ->]].
    + exists 0%N. apply Forall2_same. auto.
    + exists c. apply move_issue_shape.
  - destruct Hcases as [->|[c ->]]; [reflexivity|].
    unfold move_issue. rewrite map_map. apply map_ext.
    intros a. destruct (iss_id a =? activeId)%N; reflexivity.
  - intros ->. reflexivity.
  - intros H. unfold handleDragOver. destruct over; [|reflexivity].
    rewrite H. reflexivity.
Qed.

Lemma handleDragOver_shape_witness :
  let issues' := handleDragOver sample_issues sample_columns 30%N (Some 21%N) in
  (exists c,
     Forall2 (fun a b => b = a \/ (iss_id a = 30%N /\ b = with_column_id a c))
             sample_issues issues')
  /\ map iss_id issues' = map iss_id sample_issues
  /\ (Some 21%N = None -> issues' = sample_issues)
  /\ (find (fun i => (iss_id i =? 30)%N) sample_issues = None ->
      issues' = sample_issues).
Proof. exact (handleDragOver_shape sample_issues sample_columns 30%N (Some 21%N)). Defined.

(** X16. When the dragged issue is on the board: over a column, the issue
    lands in that column; over an issue (whose id is not a column id), it
    lands in that issue's column. *)
Theorem handleDragOver_target (issues : list issue) (columns : list column)
    (activeId overId : uuid) (activeIssue : issue) :
  find (fun i => (iss_id i =? activeId)%N) issues = Some activeIssue ->
  let issues' := handleDragOver issues columns activeId (Some overId) in
  (existsb (fun c => (col_id c =? overId)%N) columns = true ->
   find (fun i => (iss_id i =? activeId)%N) issues'
   = Some (with_column_id activeIssue overId))
  /\ (existsb (fun c => (col_id c =? overId)%N) columns = false ->
      forall overIssue,
        find (fun i => (iss_id i =? overId)%N) issues = Some overIssue ->
        find (fun i => (iss_id i =? activeId)%N) issues'
        = Some (with_column_id activeIssue (iss_column_id overIssue))).
Proof.
  intros Ha. cbv zeta. unfold handleDragOver. rewrite Ha. split.
  - intros ->. destruct (N.eqb_spec (iss_column_id activeIssue) overId) as [E|E]; simpl.
    + rewrite <- E, with_column_id_same. exact Ha.
    + apply find_move_issue. exact Ha.
  - intros -> o Ho. rewrite Ho.
    destruct (N.eqb_spec (iss_column_id activeIssue) (iss_column_id o)) as [E|E]; simpl.
    + rewrite <- E, with_column_id_same. exact Ha.
    + apply find_move_issue. exact Ha.
Qed.

Lemma handleDragOver_target_witness :
  let issues' := handleDragOver sample_issues sample_columns 30%N (Some 32%N) in
  (existsb (fun c => (col_id c =? 32)%N) sample_columns = true ->
   find (fun i => (iss_id i =? 30)%N) issues'
   = Some (with_column_id (sample_issue 30%N 20%N 0%Z) 32%N))
  /\ (existsb (fun c => (col_id c =? 32)%N) sample_columns = false ->
      forall overIssue,
        find (fun i => (iss_id i =? 32)%N) sample_issues = Some overIssue ->
        find (fun i => (iss_id i =? 30)%N) issues'
        = Some (with_column_id (sample_issue 30%N 20%N 0%Z) (iss_column_id overIssue))).
Proof.
  apply (handleDragOver_target sample_issues sample_columns 30%N 32%N
           (sample_issue 30%N 20%N 0%Z)).
  reflexivity.
Defined.

(** X17. Repeating the same drag-over event changes nothing more: the
    second call returns the list the first one left. *)
Theorem handleDragOver_idempotent (issues : list issue) (columns : list column)
    (activeId : uuid) (over : option uuid) :
  handleDragOver (handleDragOver issues columns activeId over) columns activeId over
  = handleDragOver issues columns activeId over.
Proof.
  destruct over as [overId|]; [|reflexivity].
  assert (Hsame : handleDragOver issues columns activeId (Some overId) = issues ->
                  handleDragOver (handleDragOver issues columns activeId (Some overId))
                    columns activeId (Some overId)
                  = handleDragOver issues columns activeId (Some overId)).
  { intros E. rewrite !E. reflexivity. }
  destruct (find (fun i => (iss_id i =? activeId)%N) issues) as [a|] eqn:Ha.
  2: { apply Hsame. unfold handleDragOver. rewrite Ha. reflexivity. }
  destruct (handleDragOver_target issues columns activeId overId a Ha) as [Hcol Hiss].
  cbv zeta in Hcol, Hiss.
  destruct (existsb (fun c => (col_id c =? overId)%N) columns) eqn:Ecol.
  - specialize (Hcol eq_refl).
    set (r := handleDragOver issues columns activeId (Some overId)) in *.
    unfold handleDragOver. rewrite Hcol, Ecol. simpl.
    rewrite N.eqb_refl. reflexivity.
  - destruct (find (fun i => (iss_id i =? overId)%N) issues) as [o|] eqn:Ho.
    2: { apply Hsame. unfold handleDragOver. rewrite Ha, Ecol, Ho. reflexivity. }
    specialize (Hiss eq_refl o eq_refl).
    destruct (N.eq_dec overId activeId) as [Heq|Hne].
    + (* the issue is over itself *)
      apply Hsame. unfold handleDragOver. rewrite Ha, Ecol, Ho.
      rewrite Heq in Ho. assert (o = a) by congruence. subst o.
      rewrite N.eqb_refl. reflexivity.
    + assert (Ho' : find (fun i => (iss_id i =? overId)%N)
                      (handleDragOver issues columns activeId (Some overId)) = Some o).
      { unfold handleDragOver. rewrite Ha, Ecol, Ho.
        destruct (negb _); [|exact Ho].
        rewrite find_move_other by exact Hne. exact Ho. }
      set (r := handleDragOver issues columns activeId (Some overId)) in *.
      unfold handleDragOver. rewrite Hiss, Ecol, Ho'. simpl.
      rewrite N.eqb_refl. reflexivity.
Qed.

(** ** The position of a new issue *)

Lemma fold_right_max_bounds (l : list Z) :
  (-1 <= fold_right Z.max (-1) l)%Z
  /\ forall x, In x l -> (x <= fold_right Z.max (-1) l)%Z.
Proof.
  induction l as [|a l [IH0 IH]]; simpl; [split; [lia|contradiction]|].
  split; [lia|]. intros x [<-|Hx]; [lia|]. specialize (IH x Hx). lia.
Qed.

(** X18. The position [handleIssueSubmit] gives a new issue is above the
    position of every issue the board shows in the chosen column, never
    negative, and 0 for an empty column. *)
Theorem new_issue_position_spec (issues : list issue) (selectedColumnId : uuid) :
  (forall i, In i (getIssuesForColumn issues selectedColumnId) ->
             (iss_position i < new_issue_position issues selectedColumnId)%Z)
  /\ (0 <= new_issue_position issues selectedColumnId)%Z
  /\ (getIssuesForColumn issues selectedColumnId = [] ->
      new_issue_position issues selectedColumnId = 0%Z).
Proof.
  unfold new_issue_position, maxPosition.
  destruct (fold_right_max_bounds
              (map iss_position (getIssuesForColumn issues selectedColumnId)))
    as [H0 H].
  split; [|split].
  - intros i Hi.
    assert (iss_position i <= fold_right Z.max (-1)
              (map iss_position (getIssuesForColumn issues selectedColumnId)))%Z
      by (apply H, in_map, Hi).
    lia.
  - lia.
  - intros ->. reflexivity.
Qed.

Lemma new_issue_position_spec_witness :
  (forall i, In i (getIssuesForColumn sample_issues 20%N) ->
             (iss_position i < new_issue_position sample_issues 20%N)%Z)
  /\ (0 <= new_issue_position sample_issues 20%N)%Z
  /\ (getIssuesForColumn sample_issues 20%N = [] ->
      new_issue_position sample_issues 20%N = 0%Z).
Proof. exact (new_issue_position_spec sample_issues 20%N). Defined.

(** ** Typed addresses *)

Lemma is_white_space_lower (c : ascii) :
  is_white_space (ascii_toLowerCase c) = is_white_space c.
Proof. destruct c as [[] [] [] [] [] [] [] []]; reflexivity. Qed.

Lemma truthy_lower (s : string) : truthy (toLowerCase s) = truthy s.
Proof. destruct s; reflexivity. Qed.

Lemma trimStart_lower (s : string) :
  trimStart (toLowerCase s) = toLowerCase (trimStart s).
Proof.
  induction s as [|c s IH]; simpl; [reflexivity|].
  rewrite is_white_space_lower. destruct (is_white_space c); [exact IH|reflexivity].
Qed.

Lemma trimEnd_lower (s : string) :
  trimEnd (toLowerCase s) = toLowerCase (trimEnd s).
Proof.
  induction s as [|c s IH]; simpl; [reflexivity|].
  rewrite IH, is_white_space_lower.
  destruct (trimEnd s); simpl; [destruct (is_white_space c)|]; reflexivity.
Qed.

Lemma trimEnd_cons (c : ascii) (s : string) :
  trimEnd (String c s)
  = match trimEnd s with
    | EmptyString => if is_white_space c then EmptyString else String c EmptyString
    | t => String c t
    end.
Proof. reflexivity. Qed.

Lemma trimEnd_idem (s : string) : trimEnd (trimEnd s) = trimEnd s.
Proof.
  induction s as [|c s IH]; [reflexivity|].
  rewrite trimEnd_cons.
  destruct (trimEnd s) as [|c' t] eqn:E.
  - destruct (is_white_space c) eqn:W; [reflexivity|].
    rewrite trimEnd_cons. simpl. rewrite W. reflexivity.
  - rewrite trimEnd_cons, IH. reflexivity.
Qed.

Lemma trimStart_idem (s : string) : trimStart (trimStart s) = trimStart s.
Proof.
  induction s as [|c s IH]; simpl; [reflexivity|].
  destruct (is_white_space c) eqn:W; [exact IH|]. simpl. rewrite W. reflexivity.
Qed.

Lemma trimStart_trimEnd (s : string) : trimStart (trimEnd s) = trimEnd (trimStart s).
Proof.
  induction s as [|c s IH]; [reflexivity|].
  rewrite trimEnd_cons. cbn [trimStart].
  destruct (is_white_space c) eqn:W.
  - rewrite <- IH. destruct (trimEnd s); [reflexivity|].
    cbn [trimStart]. rewrite W. reflexivity.
  - rewrite trimEnd_cons.
    destruct (trimEnd s); cbn [trimStart]; rewrite W; reflexivity.
Qed.

Lemma trim_idem (s : string) : trim (trim s) = trim s.
Proof.
  unfold trim. rewrite trimStart_trimEnd, trimStart_idem, trimEnd_idem. reflexivity.
Qed.

Lemma trim_lower (s : string) : trim (toLowerCase s) = toLowerCase (trim s).
Proof. unfold trim. rewrite trimStart_lower, trimEnd_lower. reflexivity. Qed.

(** The stored form of an address is a fixed point of the normalisation. *)
Lemma normalised_email_stable (s : string) :
  toLowerCase (trim (toLowerCase (trim s))) = toLowerCase (trim s).
Proof. rewrite trim_lower, trim_idem, toLowerCase_idem. reflexivity. Qed.

(** X19. Two typed addresses with the same trimmed, lower-cased form are
    the same invitee to [handleInviteUser]: the database, the logged
    error, the email request and the completion are the same for both;
    so typing a stored address back, in any letter case and with spaces
    around it, addresses the invitation that is stored. *)
Theorem handleInviteUser_normalises (send_invitation : InvitationRequest -> bool)
    (d : db) (projectId userId : uuid) (e1 e2 : string)
    (inviteRole : member_role) (new_id new_token : uuid) (now : timestamptz) :
  toLowerCase (trim e1) = toLowerCase (trim e2) ->
  let r1 := handleInviteUser send_invitation d projectId userId e1 inviteRole
              new_id new_token now in
  let r2 := handleInviteUser send_invitation d projectId userId e2 inviteRole
              new_id new_token now in
  ir_db r1 = ir_db r2
  /\ ir_error r1 = ir_error r2
  /\ ir_request r1 = ir_request r2
  /\ ir_completed r1 = ir_completed r2.
Proof.
  intros H. cbv zeta. unfold handleInviteUser.
  assert (Ht : truthy (trim e1) = truthy (trim e2))
    by (rewrite <- (truthy_lower (trim e1)), H; apply truthy_lower).
  rewrite Ht, H. destruct (truthy (trim e2)); cbn [negb]; [|auto].
  destruct (insert_invitation _ _ _); cbn [ir_db ir_error ir_request ir_completed]; auto.
Qed.

Lemma handleInviteUser_normalises_witness :
  let r1 := handleInviteUser (fun _ => false) Sample.db0 Sample.alpha Sample.alice
              "  Bob@X.com " owner 202%N 779%N 5000%Z in
  let r2 := handleInviteUser (fun _ => false) Sample.db0 Sample.alpha Sample.alice
              "bob@x.com" owner 202%N 779%N 5000%Z in
  ir_db r1 = ir_db r2
  /\ ir_error r1 = ir_error r2
  /\ ir_request r1 = ir_request r2
  /\ ir_completed r1 = ir_completed r2.
Proof.
  apply (handleInviteUser_normalises (fun _ => false) Sample.db0 Sample.alpha
           Sample.alice "  Bob@X.com " "bob@x.com" owner 202%N 779%N 5000%Z).
  reflexivity.
Defined.

Lemma trimEnd_keeps_head (c : ascii) (s : string) :
  is_white_space c = false -> truthy (trimEnd (String c s)) = true.
Proof.
  intros W. rewrite trimEnd_cons. destruct (trimEnd s); [rewrite W|]; reflexivity.
Qed.

Lemma truthy_trim (s : string) : truthy (trim s) = negb (all_white_space s).
Proof.
  unfold trim. induction s as [|c s IH]; [reflexivity|].
  cbn [trimStart all_white_space]. destruct (is_white_space c) eqn:W.
  - exact IH.
  - rewrite trimEnd_keeps_head by exact W. reflexivity.
Qed.

(** X20. [handleInviteUser] returns at once, with the database untouched
    and without toast, error or email, when the typed address is empty or
    made only of tabs, line feeds, vertical tabs, form feeds, carriage
    returns and spaces. A typed address of ASCII characters that is not
    of this kind is always answered with a toast. (Addresses with
    characters outside ASCII are left out: JavaScript strips further
    white space there.) *)
Theorem handleInviteUser_blank (send_invitation : InvitationRequest -> bool)
    (d : db) (projectId userId : uuid) (inviteEmail : string)
    (inviteRole : member_role) (new_id new_token : uuid) (now : timestamptz) :
  let r := handleInviteUser send_invitation d projectId userId inviteEmail inviteRole
             new_id new_token now in
  (all_white_space inviteEmail = true ->
   r = {| ir_db := d; ir_toast := None; ir_error := None; ir_request := None;
          ir_completed := false |})
  /\ (ascii_only inviteEmail = true ->
      all_white_space inviteEmail = false ->
      ir_toast r <> None).
Proof.
  cbv zeta. unfold handleInviteUser. rewrite truthy_trim. split.
  - intros ->. reflexivity.
  - intros _ ->. cbn [negb].
    destruct (insert_invitation _ _ _); cbn [ir_toast]; discriminate.
Qed.

Lemma handleInviteUser_blank_witness :
  handleInviteUser (fun _ => false) Sample.db0 Sample.alpha Sample.alice
    "   " owner 202%N 779%N 5000%Z
  = {| ir_db := Sample.db0; ir_toast := None; ir_error := None; ir_request := None;
       ir_completed := false |}
  /\ ir_toast (handleInviteUser (fun _ => false) Sample.db0 Sample.alpha Sample.alice
                 " dave@x.com " owner 202%N 779%N 5000%Z) <> None.
Proof.
  split.
  - apply (proj1 (handleInviteUser_blank (fun _ => false) Sample.db0 Sample.alpha
                    Sample.alice "   " owner 202%N 779%N 5000%Z)).
    reflexivity.
  - apply (proj2 (handleInviteUser_blank (fun _ => false) Sample.db0 Sample.alpha
                    Sample.alice " dave@x.com " owner 202%N 779%N 5000%Z));
      reflexivity.
Defined.

(** ** From invitation to acceptance *)

(** X21. An invitation that [handleInviteUser] created at time [now] with
    a token no other row carries can be accepted by the account whose
    email is the stored address at every time before [now] plus seven
    days, and is refused as "Invalid or expired invitation" from that
    time on. *)
Theorem invitation_valid_seven_days (send_invitation : InvitationRequest -> bool)
    (d : db) (projectId userId : uuid) (inviteEmail : string)
    (inviteRole : member_role) (new_id new_token : uuid) (now : timestamptz)
    (u new_member_id : uuid) (now' : timestamptz) :
  let r := handleInviteUser send_invitation d projectId userId inviteEmail inviteRole
             new_id new_token now in
  truthy (trim inviteEmail) = true ->
  ir_error r = None ->
  (forall x, In x (project_invitations d) -> inv_token x <> new_token) ->
  get_current_user_email d (Some u) = Some (toLowerCase (trim inviteEmail)) ->
  members_unique d ->
  (forall m, In m (project_members d) -> pm_id m <> new_member_id) ->
  ((now' < now + interval_7_days)%Z ->
   exists d',
     accept_invitation (ir_db r) (Some u) new_token new_member_id now'
     = Ok (d', json_success projectId)
     /\ is_project_member d' (Some u) projectId = true)
  /\ ((now + interval_7_days <= now')%Z ->
      accept_invitation (ir_db r) (Some u) new_token new_member_id now'
      = Ok (ir_db r, json_failure "Invalid or expired invitation")).
Proof.
  cbv zeta. unfold handleInviteUser. intros Hne. rewrite Hne. cbn [negb].
  set (email := toLowerCase (trim inviteEmail)).
  set (d1 := delete_invitations d (Some userId) (pending_for projectId email)).
  set (row := new_invitation projectId email inviteRole userId new_id new_token now).
  destruct (insert_invitation d1 _ row) as [d2|e] eqn:E; cbn [ir_db ir_error];
    [|discriminate].
  intros _ Htokens Hmail Huniq Hfresh.
  apply insert_invitation_ok in E as [_ ->].
  set (d2 := set_project_invitations d1 (project_invitations d1 ++ [row])).
  assert (Hin : In row (project_invitations d2))
    by (simpl; apply in_or_app; simpl; auto).
  assert (Htok : token_identifies d2 row).
  { intros x Hx Heq. simpl in Hx. apply in_app_or in Hx as [Hx|[Hx|[]]]; [|auto].
    exfalso. apply filter_In in Hx as [Hx _]. exact (Htokens x Hx Heq). }
  split.
  - intros Hlt.
    destruct (accept_invitation_succeeds d2 u new_member_id now' row Hin Htok
                eq_refl Hlt Hmail Huniq Hfresh) as (ms & m & Hrun & Hone & _ & Hjoin).
    eexists. split; [exact Hrun|].
    unfold is_project_member. cbn [project_members set_project_invitations
                                    set_project_members].
    apply existsb_exists. exists m.
    assert (Hm : In m (filter (same_project_user (inv_project_id row) u) ms))
      by (rewrite Hone; simpl; auto).
    apply filter_In in Hm as [Hm Hpair]. split; [exact Hm|].
    unfold same_project_user in Hpair. cbn [inv_project_id row new_invitation] in Hpair.
    rewrite Hpair, Hjoin. reflexivity.
  - intros Hge. unfold accept_invitation, select_invitation.
    rewrite find_none_forall; [reflexivity|].
    intros x Hx. unfold acceptable.
    destruct (N.eqb_spec (inv_token x) new_token) as [Heq|]; [|reflexivity].
    rewrite (Htok x Hx Heq). cbn [inv_expires_at row new_invitation].
    apply Z.ltb_ge in Hge. rewrite Hge. reflexivity.
Qed.

Lemma invitation_valid_seven_days_witness :
  let r := handleInviteUser (fun _ => false) Sample.db0 Sample.alpha Sample.alice
             " Bob@X.com" owner 202%N 779%N 5000%Z in
  ((6000 < 5000 + interval_7_days)%Z ->
   exists d',
     accept_invitation (ir_db r) (Some Sample.bob) 779%N 101%N 6000%Z
     = Ok (d', json_success Sample.alpha)
     /\ is_project_member d' (Some Sample.bob) Sample.alpha = true)
  /\ ((5000 + interval_7_days <= 6000)%Z ->
      accept_invitation (ir_db r) (Some Sample.bob) 779%N 101%N 6000%Z
      = Ok (ir_db r, json_failure "Invalid or expired invitation")).
Proof.
  apply (invitation_valid_seven_days (fun _ => false) Sample.db0 Sample.alpha
           Sample.alice " Bob@X.com" owner 202%N 779%N 5000%Z Sample.bob 101%N 6000%Z).
  - reflexivity.
  - reflexivity.
  - intros x [<-|[]]; discriminate.
  - reflexivity.
  - exact sample_db0_members_unique.
  - intros m [<-|[]]; simpl; discriminate.
Defined.

(** ** Opening a project *)

(** X22. Under the policies of [projects] the project page loads a
    project only for its owner: what [fetchProject] returns is a row of
    the table with the requested id, owned by the caller, with [isOwner]
    true; a caller who does not own a project with that id, accepted
    member or not, gets nothing. *)
Theorem fetchProject_owner_only (d : db) (userId id : uuid) :
  (forall data isOwner,
     fetchProject d userId id = Some (data, isOwner) ->
     In data (projects d) /\ proj_id data = id
     /\ proj_owner_id data = userId /\ isOwner = true)
  /\ (is_project_owner d (Some userId) id = false -> fetchProject d userId id = None).
Proof.
  unfold fetchProject. split.
  - intros data isOwner H.
    destruct (single _) as [p|] eqn:E; [|discriminate].
    injection H as <- <-. apply single_some in E.
    assert (Hp : In p [p]) by (simpl; auto).
    rewrite <- E in Hp. apply filter_In in Hp as [Hin Hp].
    apply andb_true_iff in Hp as [Hsel Hid].
    apply N.eqb_eq in Hid. simpl in Hsel. apply N.eqb_eq in Hsel.
    unfold page_isOwner. rewrite <- Hsel, N.eqb_refl. auto.
  - intros Hnot. rewrite forall_false_filter_nil; [reflexivity|].
    intros p Hp. destruct (_ && _) eqn:E; [|reflexivity].
    apply andb_true_iff in E as [Hsel Hid]. simpl in Hsel.
    assert (is_project_owner d (Some userId) id = true).
    { unfold is_project_owner. apply existsb_exists. exists p.
      rewrite Hid, N.eqb_sym, Hsel. auto. }
    congruence.
Qed.

Lemma fetchProject_owner_only_witness :
  (forall data isOwner,
     fetchProject Sample.db1 Sample.bob Sample.alpha = Some (data, isOwner) ->
     In data (projects Sample.db1) /\ proj_id data = Sample.alpha
     /\ proj_owner_id data = Sample.bob /\ isOwner = true)
  /\ (is_project_owner Sample.db1 (Some Sample.bob) Sample.alpha = false ->
      fetchProject Sample.db1 Sample.bob Sample.alpha = None).
Proof. exact (fetchProject_owner_only Sample.db1 Sample.bob Sample.alpha). Defined.

(** ** [UNIQUE(project_id, email)] under every statement *)

Lemma exec_keeps_invitations_unique (d : db) (s : statement) :
  invitations_unique d -> invitations_unique (exec d s).
Proof.
  intros H. destruct s; simpl.
  - intros p e. unfold delete_invitations. simpl.
    etransitivity; [apply length_filter_sub | apply H].
  - destruct (insert_invitation _ _ _) as [d'|] eqn:E; simpl; [|exact H].
    revert E. unfold insert_invitation.
    destruct (negb _); [discriminate|].
    destruct (existsb (fun r' => (inv_id r' =? _)%N) _); [discriminate|].
    destruct (existsb (same_project_email _ _) _) eqn:Epair; [discriminate|].
    intros E. injection E as <-. intros p e. simpl.
    rewrite filter_app, length_app. simpl.
    destruct (same_project_email p e _) eqn:Enew; simpl; [|specialize (H p e); lia].
    unfold same_project_email in Enew. simpl in Enew.
    apply andb_true_iff in Enew as [Hp He].
    apply N.eqb_eq in Hp. apply String.eqb_eq in He. subst p e.
    simpl in Epair. rewrite (existsb_false_filter_nil _ _ Epair). simpl. lia.
  - intros p e. unfold handleRevokeInvitation, delete_invitations. simpl.
    etransitivity; [apply length_filter_sub | apply H].
  - destruct (accept_invitation _ _ _ _ _) as [[d' j]|] eqn:E; [|exact H].
    apply accept_invitation_cases in E as [[-> _]|E]; [exact H|].
    destruct E as (u & inv & ms & _ & _ & _ & _ & -> & _).
    intros p e. simpl. rewrite filter_map_stable.
    + rewrite length_map. apply H.
    + intros x. destruct (inv_id x =? inv_id inv)%N; reflexivity.
  - exact H.
  - exact H.
  - destruct (insert_project _ _ _ _ _ _ _ _ _ _ _) eqn:E; simpl; [|exact H].
    intros p e. rewrite (insert_project_invitations _ _ _ _ _ _ _ _ _ _ _ _ E). apply H.
Qed.

(** X23. At most one invitation row per (project, email), accepted or
    not: every statement the clients issue keeps the table constraint, in
    whatever order the statements arrive. *)
Theorem invitations_unique_invariant (d : db) (l : list statement) :
  invitations_unique d -> invitations_unique (run d l).
Proof.
  revert d. induction l as [|s l IH]; intros d H; simpl; [exact H|].
  apply IH, exec_keeps_invitations_unique, H.
Qed.

Lemma invitations_unique_invariant_witness :
  invitations_unique
    (run Sample.db0
       [InsertInvitation Sample.alice Sample.alpha "carol@x.com" contributor
          201%N 778%N 1000%Z;
        AcceptInvitation (Some Sample.bob) 777%N 101%N 2000%Z;
        InsertInvitation Sample.alice Sample.alpha "bob@x.com" owner
          202%N 779%N 3000%Z;
        DeleteInvitation Sample.alice 201%N]).
Proof.
  apply (invitations_unique_invariant Sample.db0). intros p e.
  cbn [project_invitations Sample.db0 filter].
  destruct (same_project_email p e Sample.bob_invitation); simpl; lia.
Defined.

(** ** The email request *)



(** ** Acceptance without an account email *)

(** C2. The email step does not stop a caller whose account has no email
    (or who has no row in [auth.users]): the comparison
    [(SELECT email ...) != invitation_record.email] is then [NULL], the
    [IF] does not take the branch, and the call goes on. With a valid
    token of an invitation addressed to somebody else, such a caller gets
    "success", a membership row with the invitation's role and
    [joined_at] set, and the invitation is marked accepted, so the
    identity it was addressed to can no longer use it. *)
Theorem accept_invitation_without_email (d : db) (u new_member_id : uuid)
    (now : timestamptz) (inv : project_invitation) :
  In inv (project_invitations d) ->
  token_identifies d inv ->
  inv_accepted_at inv = None ->
  (now < inv_expires_at inv)%Z ->
  get_current_user_email d (Some u) = None ->
  members_unique d ->
  (forall m, In m (project_members d) -> pm_id m <> new_member_id) ->
  exists d' m,
    accept_invitation d (Some u) (inv_token inv) new_member_id now
    = Ok (d', json_success (inv_project_id inv))
    /\ filter (same_project_user (inv_project_id inv) u) (project_members d') = [m]
    /\ pm_role m = inv_role inv
    /\ pm_joined_at m = Some now
    /\ is_project_member d' (Some u) (inv_project_id inv) = true
    /\ In (mark_accepted inv now) (project_invitations d')
    /\ forall uid' new_id' now',
         accept_invitation d' uid' (inv_token inv) new_id' now'
         = Ok (d', json_failure "Invalid or expired invitation").
Proof.
  intros Hin Htok Hacc Hexp Hnull Huniq Hfresh.
  destruct (upsert_member_one_row (project_members d) (inv_project_id inv) u
              (inv_role inv) (inv_invited_by inv) new_member_id now
              (Huniq (inv_project_id inv) u) Hfresh)
    as (ms & m & Hup & Hone & Hrole & Hjoin).
  pose proof (accept_invitation_ok d u (inv_token inv) new_member_id now inv ms
                (select_invitation_found d inv now Hin Htok Hacc Hexp)
                (email_mismatch_null d (Some u) inv Hnull) Hup) as Hrun.
  eexists. exists m. split; [exact Hrun|].
  split; [exact Hone|]. split; [exact Hrole|]. split; [exact Hjoin|].
  split; [|split].
  - unfold is_project_member. cbn [project_members set_project_invitations
                                    set_project_members].
    eapply upsert_member_joined. exact Hup.
  - cbn [project_invitations set_project_invitations].
    apply in_map_iff. exists inv. rewrite N.eqb_refl. auto.
  - intros uid' new_id' now'. unfold accept_invitation.
    rewrite select_invitation_after_accept by assumption. reflexivity.
Qed.

Lemma sample_db_no_email_token :
  token_identifies sample_db_no_email Sample.bob_invitation.
Proof. intros r [<-|[]] _. reflexivity. Defined.

Lemma accept_invitation_without_email_witness :
  get_current_user_email sample_db_no_email (Some sample_dave) = None
  /\ inv_email Sample.bob_invitation = "bob@x.com"%string
  /\ exists d' m,
       accept_invitation sample_db_no_email (Some sample_dave) 777%N 101%N 2000%Z
       = Ok (d', json_success Sample.alpha)
       /\ filter (same_project_user Sample.alpha sample_dave) (project_members d') = [m]
       /\ pm_role m = contributor
       /\ pm_joined_at m = Some 2000%Z
       /\ is_project_member d' (Some sample_dave) Sample.alpha = true
       /\ In (mark_accepted Sample.bob_invitation 2000%Z) (project_invitations d')
       /\ forall uid' new_id' now',
            accept_invitation d' uid' 777%N new_id' now'
            = Ok (d', json_failure "Invalid or expired invitation").
Proof.
  split; [reflexivity|]. split; [reflexivity|].
  apply (accept_invitation_without_email sample_db_no_email sample_dave 101%N 2000%Z
           Sample.bob_invitation).
  - simpl; auto.
  - exact sample_db_no_email_token.
  - reflexivity.
  - reflexivity.
  - reflexivity.
  - apply members_unique_b_sound. reflexivity.
  - intros m [<-|[]]; simpl; discriminate.
Defined.
